(** * Idle-session monitor of the price-tracker front end

    A shallow embedding of the [useSessionTimeout] hook
    (frontend/src/hooks/useSessionTimeout.js) together with the part of the
    browser it talks to: [localStorage], [Date.now], [parseInt],
    [Number.prototype.toString], [window.addEventListener],
    [setInterval], [alert] and the router's [navigate].

    Conventions of the model.
    - A JavaScript string is a [string]; each [ascii] stands for the code
      unit with the same number, so the model ranges over strings whose code
      units are below 256.
    - A JavaScript number that holds an integer is a [Z]; [NaN] is a value of
      its own.  Doubles are exact on integers up to 2^53 in absolute value and
      [Date.now()] stays below 8.64e15, so clock readings, their difference
      and [timeoutMinutes * 60 * 1000] for whole minutes are computed exactly.
      A stored string of more than fifteen digits is read as the integer it
      spells, where a browser rounds it to a double; for a clock reading and
      a threshold between 0 and 2^53 the guard of the check decides the same
      either way ([guard_insensitive_to_rounding]).
    - [localStorage] is a finite map from keys to values; [getItem] of an
      absent key is [null], written [None].
    - Every call into the browser is appended to a log, so that what a
      callback did (and did not do) can be read off the world afterwards. *)

From Stdlib Require Import ZArith Lia Ascii String List.
From stdpp Require Import base option list strings gmap.

Local Open Scope Z_scope.

(** ** JavaScript numbers and strings *)

Module JS.

(** The numbers the hook computes with: an integer or [NaN]. *)
Inductive number : Type :=
| NaN
| Int (z : Z).

(** ToBoolean on a number: [NaN], [+0] and [-0] are falsy. *)
Definition truthy_number (n : number) : bool :=
  match n with
  | NaN => false
  | Int z => negb (z =? 0)
  end.

(** ToBoolean on what [getItem] returns: [null] and the empty string are
    falsy. *)
Definition truthy_item (v : option string) : bool :=
  match v with
  | None => false
  | Some EmptyString => false
  | Some (String _ _) => true
  end.

(** [a - b] and [a > b]; any comparison with [NaN] is false. *)
Definition sub (a b : number) : number :=
  match a, b with
  | Int x, Int y => Int (x - y)
  | _, _ => NaN
  end.

Definition gt (a b : number) : bool :=
  match a, b with
  | Int x, Int y => y <? x
  | _, _ => false
  end.

(** ToString of a value read from storage: [null] becomes the four
    letters [null]. *)
Definition to_string_item (v : option string) : string :=
  match v with
  | None => "null"
  | Some s => s
  end.

Definition code (c : ascii) : Z := Z.of_N (N_of_ascii c).

(** StrWhiteSpaceChar, as far as it lies below 256: TAB, LF, VT, FF, CR,
    SP and NBSP. *)
Definition is_white_space (c : ascii) : bool :=
  let n := code c in
  ((9 <=? n) && (n <=? 13)) || (n =? 32) || (n =? 160).

Fixpoint trim_start (s : string) : string :=
  match s with
  | String c r => if is_white_space c then trim_start r else s
  | EmptyString => s
  end.

(** The two characters [parseInt] takes as a sign: [-] and [+]. *)
Definition is_sign (c : ascii) : bool :=
  (code c =? 45) || (code c =? 43).

Definition digit_value (c : ascii) : option Z :=
  let n := code c in
  if (48 <=? n) && (n <=? 57) then Some (n - 48) else None.

(** The values of the longest prefix of [s] made of decimal digits. *)
Fixpoint digit_prefix (s : string) : list Z :=
  match s with
  | String c r =>
      match digit_value c with
      | Some d => d :: digit_prefix r
      | None => []
      end
  | EmptyString => []
  end.

Definition math_int (ds : list Z) : Z :=
  fold_left (fun a d => 10 * a + d) ds 0.

(** [parseInt(string, 10)]: skip white space, read a sign, read the
    longest run of digits, ignore the rest; no digit gives [NaN]. *)
Definition parseInt10 (input : string) : number :=
  let s := trim_start input in
  let '(sign, s) :=
    match s with
    | String "-" r => (-1, r)
    | String "+" r => (1, r)
    | _ => (1, s)
    end in
  match digit_prefix s with
  | [] => NaN
  | ds => Int (sign * math_int ds)
  end.

(** [parseInt(v, 10)] for [v] as returned by [getItem]. *)
Definition parseInt (v : option string) : number :=
  parseInt10 (to_string_item v).

Definition digit_char (d : Z) : ascii := ascii_of_N (Z.to_N (48 + d)).

(** The decimal digits of [n >= 0], most significant first, in front of
    [acc]; [fuel] bounds the number of digits after the first. *)
Fixpoint digits_from (fuel : nat) (n : Z) (acc : string) : string :=
  let acc' := String (digit_char (n mod 10)) acc in
  match fuel with
  | O => acc'
  | S fuel' => if n <? 10 then acc' else digits_from fuel' (n / 10) acc'
  end.

Definition digits (n : Z) : string :=
  digits_from (Z.to_nat (Z.log2 n)) n EmptyString.

(** [Number.prototype.toString] on an integer: a minus sign for a
    negative number, then the decimal digits (clock readings are far below
    1e21, from where on JavaScript prints an exponent). *)
Definition toString (z : Z) : string :=
  if z <? 0 then String "-" (digits (- z)) else digits z.

End JS.

(** ** The browser: storage, listeners, timers and the log *)

(** The two closures the hook hands to the browser.  [inst] names the run
    of the effect that created the closure: two runs create different
    functions, which is what [removeEventListener] compares. *)
Inductive callback : Type :=
| UpdateLastActivity (inst : nat)
| CheckSession (inst : nat) (timeoutMs : Z).

#[global] Instance callback_eq_dec : EqDecision callback.
Proof. solve_decision. Defined.

(** What the page asked of the browser, in the order it asked. *)
Inductive op : Type :=
| GetItem (key : string)
| SetItem (key value : string)
| RemoveItem (key : string)
| Alert (message : string)
| Navigate (path : string)
| AddEventListener (type : string) (listener : callback)
| RemoveEventListener (type : string) (listener : callback)
| SetInterval (id : nat) (handler : callback) (delay : Z)
| ClearInterval (id : nat).

Record world : Type := World {
  storage : gmap string string;
  listeners : list (string * callback);
  intervals : gmap nat (callback * Z);
  next_interval : nat;
  log : list op
}.

Definition record (o : op) (w : world) : world :=
  World (storage w) (listeners w) (intervals w) (next_interval w) (log w ++ [o]).

Definition set_storage (f : gmap string string -> gmap string string) (w : world) : world :=
  World (f (storage w)) (listeners w) (intervals w) (next_interval w) (log w).

Definition set_listeners (f : list (string * callback) -> list (string * callback))
    (w : world) : world :=
  World (storage w) (f (listeners w)) (intervals w) (next_interval w) (log w).

(** Code that runs against the browser: a state monad over [world]. *)
Definition M (A : Type) : Type := world -> A * world.

#[global] Instance M_ret : MRet M := fun A a w => (a, w).
#[global] Instance M_bind : MBind M :=
  fun A B f m w => let '(a, w') := m w in f a w'.

Definition exec {A} (m : M A) (w : world) : world := snd (m w).

Module Browser.

Definition getItem (key : string) : M (option string) :=
  fun w => (storage w !! key, record (GetItem key) w).

Definition setItem (key value : string) : M unit :=
  fun w => (tt, record (SetItem key value) (set_storage (insert key value) w)).

Definition removeItem (key : string) : M unit :=
  fun w => (tt, record (RemoveItem key) (set_storage (delete key) w)).

Definition alert (message : string) : M unit :=
  fun w => (tt, record (Alert message) w).

Definition navigate (path : string) : M unit :=
  fun w => (tt, record (Navigate path) w).

(** A listener already registered for the type is not registered twice. *)
Definition addEventListener (type : string) (listener : callback) : M unit :=
  fun w =>
    (tt, record (AddEventListener type listener)
           (set_listeners
              (fun ls => if decide ((type, listener) ∈ ls) then ls
                         else ls ++ [(type, listener)]) w)).

Definition removeEventListener (type : string) (listener : callback) : M unit :=
  fun w =>
    (tt, record (RemoveEventListener type listener)
           (set_listeners (filter (fun l => l <> (type, listener))) w)).

(** [setInterval] hands out a fresh id and keeps the handler until
    [clearInterval]. *)
Definition setInterval (handler : callback) (delay : Z) : M nat :=
  fun w =>
    let id := next_interval w in
    (id, World (storage w) (listeners w)
               (<[id := (handler, delay)]> (intervals w)) (S id)
               (log w ++ [SetInterval id handler delay])).

Definition clearInterval (id : nat) : M unit :=
  fun w =>
    (tt, World (storage w) (listeners w) (delete id (intervals w))
               (next_interval w) (log w ++ [ClearInterval id])).

End Browser.

(** ** The hook *)

Module SessionTimeout.
Import Browser.

Definition updateLastActivity (now : Z) : M unit :=
  setItem "lastActivity" (JS.toString now).

(** The body of the interval callback; [now] is what [Date.now()] returns
    while it runs. *)
Definition checkSession (timeoutMs now : Z) : M unit :=
  item ← getItem "lastActivity";
  let lastActivity := JS.parseInt item in
  userId ← getItem "user_id";
  if JS.truthy_item userId && JS.truthy_number lastActivity then
    if JS.gt (JS.sub (JS.Int now) lastActivity) (JS.Int timeoutMs) then
      removeItem "user_id";;
      removeItem "lastActivity";;
      alert "Session expired. Please log in again.";;
      navigate "/login"
    else mret tt
  else mret tt.

(** The effect of the hook, run on mount; it returns the interval id that
    its cleanup closes over. *)
Definition effect (inst : nat) (timeoutMs now : Z) : M nat :=
  addEventListener "mousemove" (UpdateLastActivity inst);;
  addEventListener "keydown" (UpdateLastActivity inst);;
  interval ← setInterval (CheckSession inst timeoutMs) 30000;
  updateLastActivity now;;
  mret interval.

Definition cleanup (inst interval : nat) : M unit :=
  clearInterval interval;;
  removeEventListener "mousemove" (UpdateLastActivity inst);;
  removeEventListener "keydown" (UpdateLastActivity inst).

(** [useSessionTimeout(timeoutMinutes = 10)]: an omitted argument is 10. *)
Definition useSessionTimeout (inst : nat) (arg : option Z) (now : Z) : M nat :=
  let timeoutMinutes := default 10 arg in
  let timeoutMs := timeoutMinutes * 60 * 1000 in
  effect inst timeoutMs now.

End SessionTimeout.

(** ** The event loop *)

Definition run_callback (cb : callback) (now : Z) : M unit :=
  match cb with
  | UpdateLastActivity _ => SessionTimeout.updateLastActivity now
  | CheckSession _ timeoutMs => SessionTimeout.checkSession timeoutMs now
  end.

Fixpoint run_all (cbs : list callback) (now : Z) : M unit :=
  match cbs with
  | [] => mret tt
  | cb :: rest => run_callback cb now;; run_all rest now
  end.

(** The listeners registered for [type], in registration order. *)
Definition listeners_for (type : string) (w : world) : list callback :=
  snd <$> filter (fun l => fst l = type) (listeners w).

Definition dispatchEvent (type : string) (now : Z) : M unit :=
  fun w => run_all (listeners_for type w) now w.

(** The timer queue fires interval [id]; a cleared id fires nothing. *)
Definition fireInterval (id : nat) (now : Z) : M unit :=
  fun w =>
    match intervals w !! id with
    | Some (cb, _) => run_callback cb now w
    | None => (tt, w)
    end.

(** What the environment can do to a page: move the pointer, press a
    key, or let the timer with a given id come due. *)
Inductive input : Type :=
| MouseMove
| KeyDown
| IntervalDue (id : nat).

Definition deliver (now : Z) (i : input) : M unit :=
  match i with
  | MouseMove => dispatchEvent "mousemove" now
  | KeyDown => dispatchEvent "keydown" now
  | IntervalDue id => fireInterval id now
  end.

(** A run: inputs with the clock reading at which each is handled. *)
Fixpoint run (tr : list (Z * input)) (w : world) : world :=
  match tr with
  | [] => w
  | (now, i) :: rest => run rest (exec (deliver now i) w)
  end.

(** The worlds a run passes through, the first one included. *)
Fixpoint history (tr : list (Z * input)) (w : world) : list world :=
  match tr with
  | [] => [w]
  | (now, i) :: rest => w :: history rest (exec (deliver now i) w)
  end.

(** A browser in which nothing is registered yet. *)
Definition fresh (st : gmap string string) : world :=
  World st [] ∅ 0 [].

(** ** Vocabulary of the statements *)

(** The world after the two reads every check starts with. *)
Definition session_reads (w : world) : world :=
  record (GetItem "user_id") (record (GetItem "lastActivity") w).

(** The world after the four calls of the expiry branch. *)
Definition expire (w : world) : world :=
  World (delete "lastActivity" (delete "user_id" (storage w)))
        (listeners w) (intervals w) (next_interval w)
        (log w ++ [RemoveItem "user_id"; RemoveItem "lastActivity";
                   Alert "Session expired. Please log in again.";
                   Navigate "/login"]).

(** One run of the effect is in place: its two listeners and its timer,
    and nothing else. *)
Definition mounted (inst : nat) (timeoutMs : Z) (interval : nat) (w : world) : Prop :=
  listeners w = [("mousemove"%string, UpdateLastActivity inst);
                 ("keydown"%string, UpdateLastActivity inst)]
  /\ intervals w = {[ interval := (CheckSession inst timeoutMs, 30000) ]}.

(** Nothing is registered: no listener and no timer. *)
Definition unmounted (w : world) : Prop :=
  listeners w = [] /\ intervals w = ∅.

Definition is_activity (i : input) : bool :=
  match i with
  | MouseMove | KeyDown => true
  | IntervalDue _ => false
  end.

(** The clock readings of the activity events of a run, in order. *)
Fixpoint activity_times (tr : list (Z * input)) : list Z :=
  match tr with
  | [] => []
  | (t, i) :: rest =>
      if is_activity i then t :: activity_times rest else activity_times rest
  end.

(** The clock never runs backwards: each reading is at least the one
    before it, starting from [t]. *)
Fixpoint clock_from (t : Z) (tr : list (Z * input)) : Prop :=
  match tr with
  | [] => True
  | (t', _) :: rest => t <= t' /\ clock_from t' rest
  end.

(** Each reading of [ts] is less than [bound] after the one before it,
    starting from [t]. *)
Fixpoint gaps_below (bound t : Z) (ts : list Z) : Prop :=
  match ts with
  | [] => True
  | t' :: rest => t' - t < bound /\ gaps_below bound t' rest
  end.

Definition ends_with_activity (tr : list (Z * input)) : Prop :=
  match last tr with
  | Some (_, i) => is_activity i = true
  | None => False
  end.

(** Every check of the run comes no later than [timeoutMs] after the
    activity before it; [t] is the time of the activity before the run. *)
Fixpoint covered (timeoutMs t : Z) (tr : list (Z * input)) : Prop :=
  match tr with
  | [] => True
  | (t', i) :: rest =>
      if is_activity i then covered timeoutMs t' rest
      else t' - t <= timeoutMs /\ covered timeoutMs t rest
  end.

(** The calls by which a session is ended: removal from storage, the
    alert and the redirect. *)
Definition is_expiry_op (o : op) : bool :=
  match o with
  | RemoveItem _ | Alert _ | Navigate _ => true
  | _ => false
  end.

(** The storage key a call reads, writes or removes. *)
Definition storage_key (o : op) : option string :=
  match o with
  | GetItem k | SetItem k _ | RemoveItem k => Some k
  | _ => None
  end.

(** The last-activity reading a check would find in [w]. *)
Definition stamp (w : world) : JS.number :=
  JS.parseInt (storage w !! "lastActivity").

(** The four things an input can do to a page on which the effect with
    threshold [timeoutMs] and timer [interval] is mounted. *)
Inductive outcome (timeoutMs : Z) (interval : nat) (now : Z) (w : world) :
    input -> world -> Prop :=
| outcome_activity i :
    is_activity i = true ->
    outcome timeoutMs interval now w i (exec (SessionTimeout.updateLastActivity now) w)
| outcome_quiet a :
    JS.truthy_item (storage w !! "user_id") = false
    \/ JS.truthy_number (stamp w) = false
    \/ (stamp w = JS.Int a /\ now - a <= timeoutMs) ->
    outcome timeoutMs interval now w (IntervalDue interval) (session_reads w)
| outcome_expired a :
    JS.truthy_item (storage w !! "user_id") = true ->
    stamp w = JS.Int a -> a <> 0 -> timeoutMs < now - a ->
    outcome timeoutMs interval now w (IntervalDue interval) (expire (session_reads w))
| outcome_none id :
    id <> interval ->
    outcome timeoutMs interval now w (IntervalDue id) w.

(** The stamp of [w], when it is a number, is at most [t]. *)
Definition stamp_at_most (t : Z) (w : world) : Prop :=
  forall a, stamp w = JS.Int a -> a <= t.

(** From each world of [ws] to the next the stamp, when it is a number in
    both, does not decrease. *)
Definition stamps_nondecreasing (ws : list world) : Prop :=
  forall (k : nat) (wb wa : world) (a b : Z),
    ws !! k = Some wb -> ws !! S k = Some wa ->
    stamp wb = JS.Int a -> stamp wa = JS.Int b -> a <= b.

(** ** The rest of the front end

    The logout handlers of the navigation bar and of the logout button,
    the login form's submit handler, and the data logic of the wishlist
    and dashboard pages.  Rendering, styling and [console] output are left
    out; so is the price of an item, a fraction that only the rendering
    reads. *)

(** The values a JSON response carries in the fields the handlers read:
    no objects or arrays, and numbers as far as [JS.number] goes. *)
Module Value.

Inductive t : Type :=
| Undefined
| Null
| Bool (b : bool)
| Num (n : JS.number)
| Str (s : string).

(** ToBoolean. *)
Definition truthy (v : t) : bool :=
  match v with
  | Undefined | Null => false
  | Bool b => b
  | Num n => JS.truthy_number n
  | Str EmptyString => false
  | Str (String _ _) => true
  end.


(** ToString, which [localStorage.setItem] applies to what it stores;
    exact on [plain] values. *)
Definition to_string (v : t) : string :=
  match v with
  | Undefined => "undefined"
  | Null => "null"
  | Bool true => "true"
  | Bool false => "false"
  | Num JS.NaN => "NaN"
  | Num (JS.Int z) => JS.toString z
  | Str s => s
  end.

(** [a || b]. *)
Definition or_else (a b : t) : t := if truthy a then a else b.

End Value.

(** What a page asks of the user and of the server, beside the browser
    calls of [op]. *)
Inductive call : Type :=
| Confirm (message : string)
| HttpGet (url : string)
| HttpDelete (url : string)
| HttpPost (url : string) (body : gmap string string).

(** How an awaited request settles: with the response body, or rejected
    with the status and the [detail] field of the error response, if there
    is a response at all. *)
Inductive settled (D : Type) : Type :=
| Resolved (data : D)
| Rejected (response : option (Z * Value.t)).

Arguments Resolved {D} data.
Arguments Rejected {D} response.

Record frontend : Type := Frontend {
  browser : world;
  calls : list call
}.

(** Code of a page: a state monad over [frontend]. *)
Definition Page (X : Type) : Type := frontend -> X * frontend.

#[global] Instance Page_ret : MRet Page := fun X x a => (x, a).
#[global] Instance Page_bind : MBind Page :=
  fun X Y f m a => let '(x, a') := m a in f x a'.

(** A browser call made from a page. *)
Definition lift {X} (m : M X) : Page X :=
  fun a => let '(x, w) := m (browser a) in (x, Frontend w (calls a)).

(** A call whose answer the environment supplies. *)
Definition ask {X} (c : call) (answer : X) : Page X :=
  fun a => (answer, Frontend (browser a) (calls a ++ [c])).

(** A page opened in a browser, before it asked anything. *)
Definition opened (w : world) : frontend := Frontend w [].

(** [handleLogout] of the navigation bar. *)
Module Navbar.
Import Browser.

Definition handleLogout : M unit :=
  removeItem "user_id";;
  removeItem "token";;
  removeItem "lastActivity";;
  navigate "/login".

End Navbar.

(** [handleLogout] of the logout button. *)
Module LogoutButton.
Import Browser.

Definition handleLogout : M unit :=
  removeItem "user_id";;
  removeItem "token";;
  removeItem "lastActivity";;
  navigate "/login".

End LogoutButton.

(** The login page. *)
Module Login.
Import Browser.

(** The fields of the response body that the handler reads; a field the
    body lacks is [Undefined]. *)
Record data : Type := Data {
  access_token : Value.t;
  user_id : Value.t;
  message : Value.t
}.

(** [handleSubmit]: post the form and, once the request settled at clock
    reading [now], store the session and go to the dashboard, or report
    the failure.  The result is the value the handler passes to
    [setMessage] last; what the page makes of it is [LoginBanner.render].
    A body that is [null] makes the first field access throw, which lands
    in the [catch] with an error that has no response. *)
Definition handleSubmit (form : gmap string string)
    (answer : settled (option data)) (now : Z) : Page Value.t :=
  res ← ask (HttpPost "/users/login" form) answer;
  match res with
  | Resolved (Some d) =>
      (if Value.truthy (access_token d)
       then lift (setItem "token" (Value.to_string (access_token d)))
       else mret tt);;
      (if Value.truthy (user_id d)
       then lift (setItem "user_id" (Value.to_string (user_id d)));;
            lift (setItem "lastActivity" (JS.toString now))
       else mret tt);;
      lift (navigate "/dashboard");;
      mret (Value.or_else (message d) (Value.Str "Login successful!"))
  | Resolved None => mret (Value.Str "Invalid email or password")
  | Rejected (Some (_, detail)) =>
      mret (Value.or_else detail (Value.Str "Invalid email or password"))
  | Rejected None => mret (Value.Str "Invalid email or password")
  end.

End Login.

(** An entry of the wishlist as the server sends it. *)
Record item : Type := Item {
  product_id : Z;
  product_name : string;
  product_url : string;
  ai_summary : option string
}.

(** [product_id !== productId], the test [handleDelete] filters with. *)
Definition other_product (productId : Z) (it : item) : bool :=
  negb (product_id it =? productId).

(** The wishlist page. *)
Module Wishlist.
Import Browser.

Record state : Type := State {
  wishlist : list item;
  loading : bool;
  error : string
}.

Definition initial : state := State [] true EmptyString.

(** [fetchWishlist], run once when the page opens. *)
Definition fetchWishlist (answer : settled (list item)) (p : state) : Page state :=
  userId ← lift (getItem "user_id");
  if negb (JS.truthy_item userId) then
    mret (State (wishlist p) false "No user logged in.")
  else
    res ← ask (HttpGet ("/wishlist/" +:+ JS.to_string_item userId)) answer;
    match res with
    | Resolved items => mret (State items false (error p))
    | Rejected (Some (404, _)) =>
        mret (State [] false "No items in wishlist. Add some products to get started!")
    | Rejected _ =>
        mret (State (wishlist p) false "Failed to fetch wishlist. Please try again later.")
    end.

(** [handleDelete]; [confirmed] is what the user answers if asked, [ok]
    whether the server accepts the deletion if requested, and [p] the
    state at the time the update is applied. *)
Definition handleDelete (productId : Z) (confirmed ok : bool) (p : state) : Page state :=
  userId ← lift (getItem "user_id");
  if negb (JS.truthy_item userId) then
    lift (alert "User not logged in");; mret p
  else
    yes ← ask (Confirm "Are you sure you want to remove this product from your wishlist?")
              confirmed;
    if negb yes then mret p
    else
      deleted ← ask (HttpDelete ("/wishlist/user/" +:+ JS.to_string_item userId
                                +:+ "/product/" +:+ JS.toString productId)) ok;
      if (deleted : bool) then
        mret (State (List.filter (other_product productId) (wishlist p))
                    (loading p) (error p))
      else
        lift (alert "Failed to delete product. Please try again later.");; mret p.

(** Which of the four screens the page renders. *)
Inductive view : Type :=
| LoadingView
| ErrorView (message : string)
| EmptyView
| ListView (items : list item).

Definition render (p : state) : view :=
  if loading p then LoadingView
  else match error p with
       | String _ _ => ErrorView (error p)
       | EmptyString =>
           if (length (wishlist p) =? 0)%nat then EmptyView else ListView (wishlist p)
       end.

End Wishlist.

(** The dashboard page. *)
Module Dashboard.
Import Browser.

Record stats : Type := Stats {
  totalProducts : nat;
  wishlistItems : nat;
  priceDrops : nat
}.

Record state : Type := State {
  counts : stats;
  recentAIInsights : list item;
  loading : bool
}.

Definition initial : state := State (Stats 0 0 0) [] true.

(** [String.prototype.toLowerCase] on code units below 256: the letters
    A to Z and the accented capitals from 192 to 222, the multiplication
    sign at 215 apart, move up by 32. *)
Definition lower_char (c : ascii) : ascii :=
  let n := JS.code c in
  if ((65 <=? n) && (n <=? 90))
     || ((192 <=? n) && (n <=? 222) && negb (n =? 215))
  then ascii_of_N (Z.to_N (n + 32)) else c.

Fixpoint toLowerCase (s : string) : string :=
  match s with
  | EmptyString => EmptyString
  | String c r => String (lower_char c) (toLowerCase r)
  end.

Fixpoint starts_with (needle s : string) : bool :=
  match needle, s with
  | EmptyString, _ => true
  | String _ _, EmptyString => false
  | String a needle', String b s' =>
      if Ascii.eqb a b then starts_with needle' s' else false
  end.

(** [s.includes(needle)]. *)
Fixpoint includes (s needle : string) : bool :=
  starts_with needle s
  || match s with
     | EmptyString => false
     | String _ r => includes r needle
     end.

(** [item.ai_summary] as a condition. *)
Definition has_summary (it : item) : bool :=
  JS.truthy_item (ai_summary it).

(** [item.ai_summary && item.ai_summary.toLowerCase().includes("drop")]. *)
Definition mentions_drop (it : item) : bool :=
  has_summary it
  && match ai_summary it with
     | Some s => includes (toLowerCase s) "drop"
     | None => false
     end.

(** [l.slice(-3)]: the last three elements, or all of a shorter list. *)
Definition slice_last3 {X} (l : list X) : list X :=
  drop (length l - 3)%nat l.

(** What [fetchDashboardData] computes from the body of the response;
    [res.data || []] turns a missing body into the empty list. *)
Definition summarize (body : option (list item)) (p : state) : state :=
  let wishlist := default [] body in
  let total := length wishlist in
  let drops := length (List.filter mentions_drop wishlist) in
  let insights := rev (slice_last3 (List.filter has_summary wishlist)) in
  State (Stats total total drops) insights (loading p).

(** The effect the page runs when it opens. *)
Definition load (answer : settled (option (list item))) (p : state) : Page state :=
  userId ← lift (getItem "user_id");
  if negb (JS.truthy_item userId) then mret p
  else
    res ← ask (HttpGet ("/wishlist/" +:+ JS.to_string_item userId)) answer;
    match res with
    | Resolved body =>
        let p' := summarize body p in
        mret (State (counts p') (recentAIInsights p') false)
    | Rejected _ => mret (State (counts p) (recentAIInsights p) false)
    end.

(** The page shows its loading screen while [loading] is set. *)
Definition shows_loading (p : state) : bool := loading p.

End Dashboard.

(** The message banner of the login page, [message && <p ...>]: for a
    non-empty string, the text in green when it contains [success] and in
    red otherwise; any other truthy value has no [includes], so rendering
    throws; a falsy message renders as itself, which is nothing except
    for the numbers 0 and NaN, which React prints. *)
Module LoginBanner.

Inductive view : Type :=
| Hidden
| Bare (text : string)
| Shown (green : bool) (text : string)
| Throws.

Definition render (message : Value.t) : view :=
  if Value.truthy message then
    match message with
    | Value.Str s => Shown (Dashboard.includes s "success") s
    | _ => Throws
    end
  else
    match message with
    | Value.Num n => Bare (Value.to_string (Value.Num n))
    | _ => Hidden
    end.

End LoginBanner.

(** React runs the cleanup of the previous effect and then the effect
    anew when [timeoutMs] changes: a new closure [inst'], a new timer. *)
Definition rerun (inst interval inst' : nat) (arg : option Z) (now : Z) : M nat :=
  SessionTimeout.cleanup inst interval;;
  SessionTimeout.useSessionTimeout inst' arg now.

(** How many alerts a log holds. *)
Definition alerts (l : list op) : nat :=
  length (List.filter (fun o => match o with Alert _ => true | _ => false end) l).

(** Every input is a firing of some timer. *)
Definition only_timers (tr : list (Z * input)) : Prop :=
  Forall (fun e => is_activity (snd e) = false) tr.

(** Some firing of timer [interval] comes more than [timeoutMs] after [t]. *)
Definition late_check (timeoutMs : Z) (interval : nat) (t : Z)
    (tr : list (Z * input)) : Prop :=
  Exists (fun e => snd e = IntervalDue interval /\ timeoutMs < fst e - t) tr.

(** What a settled login leaves in storage: each of the two guards
    decides on its own whether its entries are written. *)
Definition login_storage (d : Login.data) (now : Z) (st : gmap string string) :
    gmap string string :=
  let st1 := if Value.truthy (Login.access_token d)
             then <["token" := Value.to_string (Login.access_token d)]> st else st in
  if Value.truthy (Login.user_id d)
  then <["lastActivity" := JS.toString now]>
         (<["user_id" := Value.to_string (Login.user_id d)]> st1)
  else st1.

(** ** The built-ins on concrete values *)

Example parseInt_plain : JS.parseInt (Some "1700000000000") = JS.Int 1700000000000.
Proof. reflexivity. Qed.

Example parseInt_null : JS.parseInt None = JS.NaN.
Proof. reflexivity. Qed.

Example parseInt_junk_suffix : JS.parseInt (Some "  -42px") = JS.Int (-42).
Proof. reflexivity. Qed.

Example parseInt_no_digit : JS.parseInt (Some "abc") = JS.NaN.
Proof. reflexivity. Qed.

Example toString_now : JS.toString 1700000000000 = "1700000000000"%string.
Proof. reflexivity. Qed.

Example toString_negative : JS.toString (-305) = "-305"%string.
Proof. reflexivity. Qed.

Example toString_zero : JS.toString 0 = "0"%string.
Proof. reflexivity. Qed.

(** ** Printing a clock reading and reading it back *)

Section Decimal.
Import JS.

Lemma digit_cases (d : Z) :
  0 <= d < 10 ->
  d = 0 \/ d = 1 \/ d = 2 \/ d = 3 \/ d = 4 \/ d = 5 \/ d = 6 \/ d = 7 \/ d = 8 \/ d = 9.
Proof. lia. Qed.

Ltac by_digit d H :=
  destruct (digit_cases d H) as [->|[->|[->|[->|[->|[->|[->|[->|[->| ->]]]]]]]]];
  reflexivity.

Lemma digit_value_char (d : Z) : 0 <= d < 10 -> digit_value (digit_char d) = Some d.
Proof. intros H. by_digit d H. Qed.

Lemma digit_char_not_space (d : Z) : 0 <= d < 10 -> is_white_space (digit_char d) = false.
Proof. intros H. by_digit d H. Qed.

Lemma digit_char_not_sign (d : Z) : 0 <= d < 10 -> is_sign (digit_char d) = false.
Proof. intros H. by_digit d H. Qed.

Lemma math_int_snoc (ds : list Z) (d : Z) :
  math_int (ds ++ [d]) = 10 * math_int ds + d.
Proof. unfold math_int. now rewrite fold_left_app. Qed.

(** The digits written for [n] are read back as [n], whatever follows
    them, provided the fuel covers the length of [n]. *)
Lemma digits_from_prefix (fuel : nat) :
  forall (n : Z) (acc : string),
    0 <= n < 10 ^ Z.of_nat (S fuel) ->
    exists ds,
      digit_prefix (digits_from fuel n acc) = ds ++ digit_prefix acc
      /\ ds <> [] /\ math_int ds = n.
Proof.
  induction fuel as [|fuel IH]; intros n acc Hn.
  - exists [n]. cbn [digits_from].
    change (10 ^ Z.of_nat 1) with 10 in Hn.
    rewrite Z.mod_small by lia. cbn [digit_prefix].
    rewrite digit_value_char by lia.
    split; [reflexivity | split; [discriminate | unfold math_int; cbn; lia]].
  - cbn [digits_from]. destruct (Z.ltb_spec n 10) as [Hlt|Hge].
    + exists [n]. rewrite Z.mod_small by lia. cbn [digit_prefix].
      rewrite digit_value_char by lia.
      split; [reflexivity | split; [discriminate | unfold math_int; cbn; lia]].
    + destruct (IH (n / 10) (String (digit_char (n mod 10)) acc)) as (ds & Hds & Hne & Hval).
      { split; [apply Z.div_pos; lia|].
        apply Z.div_lt_upper_bound; [lia|].
        rewrite <- Z.pow_succ_r by lia. rewrite <- Nat2Z.inj_succ. lia. }
      exists (ds ++ [n mod 10]). rewrite Hds. cbn [digit_prefix].
      rewrite digit_value_char by (apply Z.mod_pos_bound; lia).
      rewrite <- app_assoc. split; [reflexivity | split].
      * destruct ds; discriminate.
      * rewrite math_int_snoc, Hval. symmetry. apply Z.div_mod. lia.
Qed.

Lemma digits_from_head (fuel : nat) (n : Z) (acc : string) :
  exists d r, 0 <= d < 10 /\ digits_from fuel n acc = String (digit_char d) r.
Proof.
  revert n acc. induction fuel as [|fuel IH]; intros n acc; cbn [digits_from].
  - exists (n mod 10), acc. split; [apply Z.mod_pos_bound; lia | reflexivity].
  - destruct (n <? 10).
    + exists (n mod 10), acc. split; [apply Z.mod_pos_bound; lia | reflexivity].
    + apply IH.
Qed.

Lemma log2_fuel (n : Z) : 0 <= n -> n < 10 ^ Z.of_nat (S (Z.to_nat (Z.log2 n))).
Proof.
  intros Hn. destruct (Z.eq_dec n 0) as [->|Hnz]; [reflexivity|].
  rewrite Nat2Z.inj_succ, Z2Nat.id by apply Z.log2_nonneg.
  pose proof (Z.log2_spec n ltac:(lia)) as [_ Hlt].
  eapply Z.lt_le_trans; [exact Hlt|].
  apply Z.pow_le_mono_l. pose proof (Z.log2_nonneg n). lia.
Qed.

(** Without white space or sign in front, [parseInt10] reads the digit
    prefix of the whole string. *)
Lemma parse_unsigned (c : ascii) (r : string) :
  is_white_space c = false -> is_sign c = false ->
  parseInt10 (String c r) =
    match digit_prefix (String c r) with
    | [] => NaN
    | ds => Int (math_int ds)
    end.
Proof.
  intros Hws Hsign. unfold parseInt10. cbn [trim_start]. rewrite Hws.
  destruct c as [[] [] [] [] [] [] [] []]; try discriminate Hsign;
    (destruct (digit_prefix _) as [|d ds]; [reflexivity | f_equal; lia]).
Qed.

Lemma parse_digits (n : Z) : 0 <= n -> parseInt10 (digits n) = Int n.
Proof.
  intros Hn. unfold digits.
  destruct (digits_from_prefix (Z.to_nat (Z.log2 n)) n EmptyString) as (ds & Hds & Hne & Hval).
  { split; [exact Hn | apply log2_fuel, Hn]. }
  destruct (digits_from_head (Z.to_nat (Z.log2 n)) n EmptyString) as (d & r & Hd & Heq).
  cbn [digit_prefix] in Hds. rewrite app_nil_r in Hds.
  rewrite Heq in *.
  rewrite parse_unsigned by auto using digit_char_not_space, digit_char_not_sign.
  rewrite Hds. destruct ds; [congruence | now rewrite Hval].
Qed.

(** [parseInt(n.toString(), 10)] is [n] for every integer [n]: what
    [updateLastActivity] stores is what the next check reads. *)
Lemma parseInt_toString (z : Z) : parseInt (Some (toString z)) = Int z.
Proof.
  unfold parseInt, to_string_item, toString.
  destruct (Z.ltb_spec z 0) as [Hneg|Hpos].
  - unfold digits.
    destruct (digits_from_prefix (Z.to_nat (Z.log2 (- z))) (- z) EmptyString)
      as (ds & Hds & Hne & Hval).
    { split; [lia | apply log2_fuel; lia]. }
    cbn [digit_prefix] in Hds. rewrite app_nil_r in Hds.
    unfold parseInt10. cbn [trim_start].
    change (is_white_space "-") with false. cbv beta iota.
    rewrite Hds. destruct ds; [congruence|]. f_equal. lia.
  - apply parse_digits, Hpos.
Qed.

End Decimal.

(** ** Rounding to a double *)

Section Rounding.
Import JS.

(** Any rounding that keeps the order and is exact up to 2^53. *)
Variable rnd : Z -> Z.
Hypothesis rnd_monotone : forall x y, x <= y -> rnd x <= rnd y.
Hypothesis rnd_exact : forall x, Z.abs x <= 2 ^ 53 -> rnd x = x.

(** The guard [lastActivity && now - lastActivity > timeoutMs] decides the
    same on the rounded reading as on the exact one. *)
Lemma guard_insensitive_to_rounding (now timeoutMs stored : Z) :
  0 <= now < 2 ^ 53 -> 0 <= timeoutMs < 2 ^ 53 ->
  truthy_number (Int (rnd stored))
    && gt (Int (rnd (now - rnd stored))) (Int timeoutMs)
  = truthy_number (Int stored) && gt (sub (Int now) (Int stored)) (Int timeoutMs).
Proof.
  intros Hnow Htm. cbn [truthy_number gt sub].
  pose proof (rnd_exact (2 ^ 53) ltac:(lia)) as Htop.
  pose proof (rnd_exact (- 2 ^ 53) ltac:(lia)) as Hbot.
  pose proof (rnd_exact (-1) ltac:(lia)) as Hm1.
  destruct (Z_le_gt_dec (Z.abs stored) (2 ^ 53)) as [Hsmall|Hbig].
  - rewrite (rnd_exact stored Hsmall). f_equal.
    destruct (Z_le_gt_dec (Z.abs (now - stored)) (2 ^ 53)) as [Hd|Hd].
    + now rewrite rnd_exact.
    + destruct (Z_le_gt_dec 0 (now - stored)) as [Hpos|Hneg].
      * pose proof (rnd_monotone (2 ^ 53) (now - stored) ltac:(lia)). lia.
      * pose proof (rnd_monotone (now - stored) (- 2 ^ 53) ltac:(lia)). lia.
  - destruct (Z_le_gt_dec 0 stored) as [Hpos|Hneg].
    + pose proof (rnd_monotone (2 ^ 53) stored ltac:(lia)).
      pose proof (rnd_monotone (now - rnd stored) (-1) ltac:(lia)). lia.
    + pose proof (rnd_monotone stored (- 2 ^ 53) ltac:(lia)).
      pose proof (rnd_monotone (2 ^ 53) (now - rnd stored) ltac:(lia)). lia.
Qed.

End Rounding.

(** ** One check, one activity event *)

Section Check.
Import JS SessionTimeout.

Lemma updateLastActivity_exec (now : Z) (w : world) :
  exec (updateLastActivity now) w =
    World (<["lastActivity" := toString now]> (storage w))
          (listeners w) (intervals w) (next_interval w)
          (log w ++ [SetItem "lastActivity" (toString now)]).
Proof. reflexivity. Qed.

Lemma checkSession_exec (timeoutMs now : Z) (w : world) :
  exec (checkSession timeoutMs now) w =
    let lastActivity := parseInt (storage w !! "lastActivity") in
    if truthy_item (storage w !! "user_id") && truthy_number lastActivity
       && gt (sub (Int now) lastActivity) (Int timeoutMs)
    then expire (session_reads w)
    else session_reads w.
Proof.
  unfold checkSession, exec, mbind, M_bind, Browser.getItem. cbn [storage record].
  destruct (truthy_item _), (truthy_number _); cbn [andb]; try reflexivity.
  destruct (gt _ _); cbn; [|reflexivity].
  unfold expire, session_reads, record, set_storage; cbn.
  now rewrite <- !app_assoc.
Qed.

Lemma checkSession_quiet (timeoutMs now : Z) (w : world) :
  truthy_item (storage w !! "user_id") = false
  \/ truthy_number (parseInt (storage w !! "lastActivity")) = false
  \/ (exists a, parseInt (storage w !! "lastActivity") = Int a /\ now - a <= timeoutMs) ->
  exec (checkSession timeoutMs now) w = session_reads w.
Proof.
  intros H. rewrite checkSession_exec. cbv zeta.
  destruct H as [-> | [-> | (a & -> & Hle)]].
  - reflexivity.
  - now rewrite andb_false_r.
  - cbn [sub gt]. destruct (Z.ltb_spec timeoutMs (now - a)); [lia|].
    now rewrite andb_false_r.
Qed.

Lemma checkSession_expires (timeoutMs now a : Z) (w : world) :
  truthy_item (storage w !! "user_id") = true ->
  parseInt (storage w !! "lastActivity") = Int a -> a <> 0 ->
  timeoutMs < now -  a ->
  exec (checkSession timeoutMs now) w = expire (session_reads w).
Proof.
  intros Hu Ha Hz Hgt. rewrite checkSession_exec. cbv zeta.
  rewrite Hu, Ha. cbn [truthy_number sub gt].
  destruct (Z.eqb_spec a 0); [contradiction|].
  destruct (Z.ltb_spec timeoutMs (now - a)); [reflexivity | lia].
Qed.

End Check.

(** ** The event loop on a mounted page *)

Section Loop.
Import JS SessionTimeout.
Context (inst : nat) (timeoutMs : Z) (interval : nat).

Lemma deliver_activity (now : Z) (i : input) (w : world) :
  mounted inst timeoutMs interval w -> is_activity i = true ->
  exec (deliver now i) w = exec (updateLastActivity now) w.
Proof.
  intros [Hl _] Hi.
  destruct i; try discriminate Hi;
    unfold deliver, dispatchEvent, listeners_for, exec; rewrite Hl; reflexivity.
Qed.

Lemma deliver_due (now : Z) (w : world) :
  mounted inst timeoutMs interval w ->
  exec (deliver now (IntervalDue interval)) w = exec (checkSession timeoutMs now) w.
Proof.
  intros [_ Hi]. unfold deliver, fireInterval, exec.
  now rewrite Hi, lookup_singleton_eq.
Qed.

Lemma deliver_other_due (now : Z) (id : nat) (w : world) :
  mounted inst timeoutMs interval w -> id <> interval ->
  exec (deliver now (IntervalDue id)) w = w.
Proof.
  intros [_ Hi] Hne. unfold deliver, fireInterval, exec.
  rewrite Hi, lookup_singleton_ne by congruence. reflexivity.
Qed.

Lemma deliver_outcome (now : Z) (i : input) (w : world) :
  mounted inst timeoutMs interval w ->
  outcome timeoutMs interval now w i (exec (deliver now i) w).
Proof.
  intros Hm. destruct i as [| |id].
  - rewrite deliver_activity by easy. now constructor.
  - rewrite deliver_activity by easy. now constructor.
  - destruct (decide (id = interval)) as [->|Hne].
    2:{ rewrite deliver_other_due by easy. now constructor. }
    rewrite deliver_due by easy.
    destruct (truthy_item (storage w !! "user_id")) eqn:Hu.
    2:{ rewrite checkSession_quiet by auto. apply outcome_quiet with (a := 0). auto. }
    destruct (stamp w) as [|a] eqn:Hs.
    { rewrite checkSession_quiet by (right; left; unfold stamp in Hs; now rewrite Hs).
      apply outcome_quiet with (a := 0). right; left. now rewrite Hs. }
    destruct (Z.eq_dec a 0) as [->|Hz].
    { rewrite checkSession_quiet by (right; left; unfold stamp in Hs; now rewrite Hs).
      apply outcome_quiet with (a := 0). right; left. now rewrite Hs. }
    destruct (Z_lt_le_dec timeoutMs (now - a)) as [Hgt|Hle].
    + rewrite (checkSession_expires _ _ a) by easy. now apply outcome_expired with (a := a).
    + rewrite checkSession_quiet by (right; right; exists a; easy).
      apply outcome_quiet with (a := a). right; right. easy.
Qed.

Lemma outcome_mounted (now : Z) (i : input) (w w' : world) :
  outcome timeoutMs interval now w i w' ->
  mounted inst timeoutMs interval w -> mounted inst timeoutMs interval w'.
Proof. intros H Hm; destruct H; exact Hm. Qed.

Lemma deliver_mounted (now : Z) (i : input) (w : world) :
  mounted inst timeoutMs interval w ->
  mounted inst timeoutMs interval (exec (deliver now i) w).
Proof. intros Hm. eapply outcome_mounted; [apply deliver_outcome|]; exact Hm. Qed.

Lemma run_mounted (tr : list (Z * input)) (w : world) :
  mounted inst timeoutMs interval w ->
  mounted inst timeoutMs interval (run tr w).
Proof.
  revert w. induction tr as [|[t i] tr IH]; intros w Hm; cbn [run]; [exact Hm|].
  apply IH, deliver_mounted, Hm.
Qed.

End Loop.

(** ** The periodic check *)

Section CheckClaims.
Import JS SessionTimeout.

Lemma session_reads_eq (w : world) :
  session_reads w =
    World (storage w) (listeners w) (intervals w) (next_interval w)
          (log w ++ [GetItem "lastActivity"; GetItem "user_id"]).
Proof. unfold session_reads, record; cbn. now rewrite <- app_assoc. Qed.

Lemma expire_session_reads_eq (w : world) :
  expire (session_reads w) =
    World (delete "lastActivity" (delete "user_id" (storage w)))
          (listeners w) (intervals w) (next_interval w)
          (log w ++ [GetItem "lastActivity"; GetItem "user_id";
                     RemoveItem "user_id"; RemoveItem "lastActivity";
                     Alert "Session expired. Please log in again.";
                     Navigate "/login"]).
Proof. rewrite session_reads_eq. unfold expire; cbn. now rewrite <- app_assoc. Qed.

Lemma truthy_item_nonempty (v : option string) (uid : string) :
  v = Some uid -> uid <> EmptyString -> truthy_item v = true.
Proof. intros -> Hne. destruct uid; [contradiction | reflexivity]. Qed.

(** C1, as stated, fails on two inputs.  With [user_id] present and
    [lastActivity] holding [0], which parses to the timestamp 0, a check
    run 1.7e12 ms later (far beyond a 600000 ms threshold) removes
    nothing, alerts nothing and redirects nowhere.  The same happens when
    [user_id] is present but holds the empty string. *)
Lemma check_keeps_session_on_zero_stamp_or_empty_marker :
  (let w := fresh (<["user_id" := "7"]> (<["lastActivity" := "0"]> ∅)) in
   storage w !! "user_id" = Some "7"%string
   /\ parseInt (storage w !! "lastActivity") = Int 0
   /\ 1700000000000 - 0 > 600000
   /\ exec (checkSession 600000 1700000000000) w =
        World (storage w) [] ∅ 0 [GetItem "lastActivity"; GetItem "user_id"])
  /\
  (let w := fresh (<["user_id" := EmptyString]> (<["lastActivity" := "1000"]> ∅)) in
   storage w !! "user_id" = Some EmptyString
   /\ parseInt (storage w !! "lastActivity") = Int 1000
   /\ 1700000000000 - 1000 > 600000
   /\ exec (checkSession 600000 1700000000000) w =
        World (storage w) [] ∅ 0 [GetItem "lastActivity"; GetItem "user_id"]).
Proof. repeat split; vm_compute; reflexivity. Qed.

(** C1 (amended): in a check that finds a non-empty [user_id] and a
    [lastActivity] that parses to a non-zero integer [a], if
    [now - a > timeoutMs] the check removes [user_id] and [lastActivity],
    raises the alert "Session expired. Please log in again." and
    navigates to [/login], in this order and after its two reads; if
    [now - a <= timeoutMs] it only performs the two reads. *)
Theorem check_expires_exactly_when_idle_too_long
    (timeoutMs now a : Z) (uid : string) (w : world) :
  storage w !! "user_id" = Some uid -> uid <> EmptyString ->
  parseInt (storage w !! "lastActivity") = Int a -> a <> 0 ->
  let w' := exec (checkSession timeoutMs now) w in
  (now - a > timeoutMs ->
   w' = World (delete "lastActivity" (delete "user_id" (storage w)))
              (listeners w) (intervals w) (next_interval w)
              (log w ++ [GetItem "lastActivity"; GetItem "user_id";
                         RemoveItem "user_id"; RemoveItem "lastActivity";
                         Alert "Session expired. Please log in again.";
                         Navigate "/login"]))
  /\ (now - a <= timeoutMs ->
      w' = World (storage w) (listeners w) (intervals w) (next_interval w)
                 (log w ++ [GetItem "lastActivity"; GetItem "user_id"])).
Proof.
  intros Hu Hne Ha Hz w'. subst w'. split; intros Hcmp.
  - rewrite (checkSession_expires timeoutMs now a); try assumption; try lia.
    + apply expire_session_reads_eq.
    + eapply truthy_item_nonempty; eassumption.
  - rewrite checkSession_quiet; [apply session_reads_eq|].
    right; right. exists a. split; [assumption | lia].
Qed.

(** Scenario A of the specification, with the activity recorded at clock
    reading 1700000000000 and the check eleven minutes later. *)
Lemma check_expires_exactly_when_idle_too_long_witness :
  let w := fresh (<["user_id" := "7"]> (<["lastActivity" := "1700000000000"]> ∅)) in
  exec (checkSession 600000 1700000660000) w =
    World ∅ [] ∅ 0
      [GetItem "lastActivity"; GetItem "user_id";
       RemoveItem "user_id"; RemoveItem "lastActivity";
       Alert "Session expired. Please log in again."; Navigate "/login"].
Proof.
  intros w.
  destruct (check_expires_exactly_when_idle_too_long
              600000 1700000660000 1700000000000 "7" w) as [Hexp _].
  - vm_compute; reflexivity.
  - discriminate.
  - vm_compute; reflexivity.
  - lia.
  - rewrite Hexp by lia. vm_compute; reflexivity.
Defined.

(** C3: when [lastActivity] is absent from storage, or holds a string
    that [parseInt] does not read as a number, the check does its two
    reads and nothing else, whatever [user_id] holds. *)
Theorem check_fails_open_on_bad_stamp (timeoutMs now : Z) (w : world) :
  (storage w !! "lastActivity" = None
   \/ exists v, storage w !! "lastActivity" = Some v /\ parseInt10 v = NaN) ->
  exec (checkSession timeoutMs now) w =
    World (storage w) (listeners w) (intervals w) (next_interval w)
          (log w ++ [GetItem "lastActivity"; GetItem "user_id"]).
Proof.
  intros H. rewrite checkSession_quiet; [apply session_reads_eq|].
  right; left. destruct H as [-> | (v & -> & Hv)].
  - reflexivity.
  - unfold parseInt, to_string_item. now rewrite Hv.
Qed.

(** Scenario D of the specification: a non-numeric [lastActivity]. *)
Lemma check_fails_open_on_bad_stamp_witness :
  let w := fresh (<["user_id" := "7"]> (<["lastActivity" := "yesterday"]> ∅)) in
  exec (checkSession 600000 1700000660000) w =
    World (storage w) [] ∅ 0 [GetItem "lastActivity"; GetItem "user_id"].
Proof.
  intros w.
  apply (check_fails_open_on_bad_stamp 600000 1700000660000 w).
  right. exists "yesterday"%string. split; vm_compute; reflexivity.
Defined.

(** C10: when [lastActivity] parses to 0 the check does its two reads
    and nothing else, however long ago the epoch is and whatever
    [user_id] holds. *)
Theorem check_treats_zero_stamp_as_missing (timeoutMs now : Z) (w : world) :
  parseInt (storage w !! "lastActivity") = Int 0 ->
  exec (checkSession timeoutMs now) w =
    World (storage w) (listeners w) (intervals w) (next_interval w)
          (log w ++ [GetItem "lastActivity"; GetItem "user_id"]).
Proof.
  intros H. rewrite checkSession_quiet; [apply session_reads_eq|].
  right; left. now rewrite H.
Qed.

Lemma check_treats_zero_stamp_as_missing_witness :
  let w := fresh (<["user_id" := "7"]> (<["lastActivity" := "0"]> ∅)) in
  1700000000000 - 0 > 600000
  /\ exec (checkSession 600000 1700000000000) w =
       World (storage w) [] ∅ 0 [GetItem "lastActivity"; GetItem "user_id"].
Proof.
  intros w. split; [lia|].
  apply (check_treats_zero_stamp_as_missing 600000 1700000000000 w).
  vm_compute; reflexivity.
Defined.

End CheckClaims.

(** ** Activity events and the absent session *)

Section HandlerClaims.
Import JS SessionTimeout.

Lemma run_checks_without_marker (inst : nat) (timeoutMs : Z) (interval : nat)
    (times : list Z) :
  forall w : world,
    mounted inst timeoutMs interval w ->
    truthy_item (storage w !! "user_id") = false ->
    run ((fun t => (t, IntervalDue interval)) <$> times) w =
      World (storage w) (listeners w) (intervals w) (next_interval w)
            (log w ++ flat_map (fun _ => [GetItem "lastActivity"; GetItem "user_id"]) times).
Proof.
  induction times as [|t times IH]; intros w Hm Hu.
  - cbn. rewrite app_nil_r. now destruct w.
  - cbn [fmap list_fmap run flat_map].
    rewrite (deliver_due inst timeoutMs) by exact Hm.
    rewrite checkSession_quiet by auto.
    rewrite IH; [| exact Hm | exact Hu].
    rewrite session_reads_eq; cbn. now rewrite <- app_assoc.
Qed.

(** C4: while [user_id] is absent from storage a check only performs
    its two reads: storage, listeners and timers are as before and
    neither alert nor redirect is logged; and however many times the
    timer of a mounted monitor comes due, the page only accumulates those
    reads. *)
Theorem check_without_marker_is_noop (timeoutMs : Z) (w : world) :
  storage w !! "user_id" = None ->
  (forall now,
     exec (checkSession timeoutMs now) w =
       World (storage w) (listeners w) (intervals w) (next_interval w)
             (log w ++ [GetItem "lastActivity"; GetItem "user_id"]))
  /\ (forall inst interval times,
        mounted inst timeoutMs interval w ->
        run ((fun t => (t, IntervalDue interval)) <$> times) w =
          World (storage w) (listeners w) (intervals w) (next_interval w)
                (log w ++ flat_map (fun _ => [GetItem "lastActivity"; GetItem "user_id"])
                                   times)).
Proof.
  intros Hu. split.
  - intros now. rewrite checkSession_quiet; [apply session_reads_eq|].
    left. now rewrite Hu.
  - intros inst interval times Hm.
    apply (run_checks_without_marker inst timeoutMs interval times w Hm).
    now rewrite Hu.
Qed.

(** Scenario C of the specification: a monitor mounted on a page that
    never had a session marker, and three checks half a minute apart. *)
Lemma check_without_marker_is_noop_witness :
  let w := exec (useSessionTimeout 0 (Some 10) 1700000000000) (fresh ∅) in
  run [(1700000030000, IntervalDue 0%nat); (1700000060000, IntervalDue 0%nat);
       (1700000090000, IntervalDue 0%nat)] w =
    World (storage w) (listeners w) (intervals w) (next_interval w)
          (log w ++ [GetItem "lastActivity"; GetItem "user_id";
                     GetItem "lastActivity"; GetItem "user_id";
                     GetItem "lastActivity"; GetItem "user_id"]).
Proof.
  intros w.
  destruct (check_without_marker_is_noop 600000 w) as [_ Hrun].
  - vm_compute; reflexivity.
  - apply (Hrun 0%nat 0%nat [1700000030000; 1700000060000; 1700000090000]).
    split; vm_compute; reflexivity.
Defined.

(** C6: the activity handler performs one call, [setItem] of
    [lastActivity] to the printed clock reading, which reads back as that
    reading; every other entry of storage keeps its value, listeners and
    timers are as before, and no alert or redirect is logged.  On a
    mounted page a pointer move and a key press each run exactly this
    handler. *)
Theorem activity_handler_only_writes_stamp (now : Z) (w : world) :
  let w' := exec (updateLastActivity now) w in
  w' = World (<["lastActivity" := toString now]> (storage w))
             (listeners w) (intervals w) (next_interval w)
             (log w ++ [SetItem "lastActivity" (toString now)])
  /\ stamp w' = Int now
  /\ (forall k : string, k <> "lastActivity"%string -> storage w' !! k = storage w !! k)
  /\ (forall inst timeoutMs interval i,
        mounted inst timeoutMs interval w -> is_activity i = true ->
        exec (deliver now i) w = w').
Proof.
  intros w'. subst w'. rewrite updateLastActivity_exec. cbn [storage].
  split; [reflexivity|]. split; [|split].
  - unfold stamp; cbn [storage]. rewrite lookup_insert_eq. apply parseInt_toString.
  - intros k Hk. now rewrite lookup_insert_ne.
  - intros inst timeoutMs interval i Hm Hi.
    now rewrite (deliver_activity inst timeoutMs interval).
Qed.

Lemma activity_handler_only_writes_stamp_witness :
  let w := exec (useSessionTimeout 0 None 1700000000000)
                (fresh (<["user_id" := "7"]> (<["token" := "abc"]> ∅))) in
  exec (deliver 1700000540000 KeyDown) w =
    World (<["lastActivity" := "1700000540000"]> (storage w))
          (listeners w) (intervals w) (next_interval w)
          (log w ++ [SetItem "lastActivity" "1700000540000"]).
Proof.
  intros w.
  destruct (activity_handler_only_writes_stamp 1700000540000 w) as (Hw & _ & _ & Hd).
  rewrite (Hd 0%nat 600000 0%nat KeyDown).
  - exact Hw.
  - split; vm_compute; reflexivity.
  - reflexivity.
Defined.

End HandlerClaims.

(** ** Runs of a mounted monitor *)

Section Runs.
Import JS SessionTimeout.
Context (inst : nat) (timeoutMs : Z) (interval : nat).

Lemma stamp_after_activity (now : Z) (w : world) :
  stamp (exec (updateLastActivity now) w) = Int now.
Proof.
  rewrite updateLastActivity_exec. unfold stamp; cbn [storage].
  rewrite lookup_insert_eq. apply parseInt_toString.
Qed.

Lemma stamp_after_expiry (w : world) : stamp (expire (session_reads w)) = NaN.
Proof.
  rewrite expire_session_reads_eq. unfold stamp; cbn [storage].
  now rewrite lookup_delete_eq.
Qed.

Lemma storage_after_activity (now : Z) (w : world) :
  storage (exec (updateLastActivity now) w) = <["lastActivity" := toString now]> (storage w).
Proof. reflexivity. Qed.

Lemma log_after_activity (now : Z) (w : world) :
  log (exec (updateLastActivity now) w) = log w ++ [SetItem "lastActivity" (toString now)].
Proof. reflexivity. Qed.

Lemma storage_after_reads (w : world) : storage (session_reads w) = storage w.
Proof. reflexivity. Qed.

Lemma log_after_reads (w : world) :
  log (session_reads w) = log w ++ [GetItem "lastActivity"; GetItem "user_id"].
Proof. now rewrite session_reads_eq. Qed.

(** A run whose checks are all covered ends no session: [user_id] keeps
    its value and the calls it adds to the log are reads and writes of
    the stamp. *)
Lemma covered_run_keeps_session (tr : list (Z * input)) :
  forall (w : world) (t : Z),
    mounted inst timeoutMs interval w ->
    stamp w = Int t ->
    covered timeoutMs t tr ->
    storage (run tr w) !! "user_id" = storage w !! "user_id"
    /\ exists added, log (run tr w) = log w ++ added
                     /\ Forall (fun o => is_expiry_op o = false) added.
Proof.
  induction tr as [|[t' i] tr IH]; intros w t Hm Hs Hc.
  - cbn [run]. split; [reflexivity|]. exists []. now rewrite app_nil_r.
  - cbn [run]. cbn [covered] in Hc.
    pose proof (deliver_mounted inst timeoutMs interval t' i w Hm) as Hm'.
    destruct (deliver_outcome inst timeoutMs interval t' i w Hm)
      as [i Hi | a Hq | a Hu Ha Hz Hgt | id Hne].
    + rewrite Hi in Hc.
      destruct (IH _ t' Hm' (stamp_after_activity t' w) Hc) as (Hu & added & Hl & Hf).
      rewrite storage_after_activity, lookup_insert_ne in Hu by discriminate.
      rewrite log_after_activity in Hl.
      split; [exact Hu|].
      exists (SetItem "lastActivity" (toString t') :: added).
      split; [now rewrite Hl, <- app_assoc | now constructor].
    + cbn [is_activity] in Hc. destruct Hc as [_ Hc].
      destruct (IH (session_reads w) t Hm' Hs Hc) as (Hu & added & Hl & Hf).
      rewrite storage_after_reads in Hu. rewrite log_after_reads in Hl.
      split; [exact Hu|].
      exists (GetItem "lastActivity" :: GetItem "user_id" :: added).
      split; [now rewrite Hl, <- app_assoc | now repeat constructor].
    + cbn [is_activity] in Hc. destruct Hc as [Hle _].
      rewrite Hs in Ha. injection Ha as <-. lia.
    + cbn [is_activity] in Hc. destruct Hc as [_ Hc].
      now apply (IH w t).
Qed.

Lemma first_activity_not_before (tr : list (Z * input)) :
  forall t : Z,
    clock_from t tr -> ends_with_activity tr ->
    exists t' ts, activity_times tr = t' :: ts /\ t <= t'.
Proof.
  induction tr as [|[t1 i] tr IH]; intros t Hc He.
  - contradiction.
  - destruct Hc as [Hle Hc]. cbn [activity_times].
    destruct (is_activity i) eqn:Hi.
    + now exists t1, (activity_times tr).
    + assert (He' : ends_with_activity tr).
      { unfold ends_with_activity in *. destruct tr as [|e tr'].
        - cbn in He. congruence.
        - now rewrite last_cons_cons in He. }
      destruct (IH t1 Hc He') as (t' & ts & Hts & Hle').
      exists t', ts. split; [exact Hts | lia].
Qed.

(** Activity events less than [timeoutMs] apart, on a clock that does not
    run backwards, cover every check that comes before the last of them. *)
Lemma gaps_cover_checks (tr : list (Z * input)) :
  forall t tc : Z,
    clock_from tc tr ->
    gaps_below timeoutMs t (activity_times tr) ->
    tr = [] \/ ends_with_activity tr ->
    covered timeoutMs t tr.
Proof.
  induction tr as [|[t1 i] tr IH]; intros t tc Hc Hg He; [exact I|].
  destruct He as [He|He]; [discriminate|].
  assert (He' : tr = [] \/ ends_with_activity tr).
  { destruct tr as [|e tr']; [now left | right].
    unfold ends_with_activity in *. now rewrite last_cons_cons in He. }
  destruct Hc as [Hle Hc]. cbn [activity_times] in Hg. cbn [covered].
  destruct (is_activity i) eqn:Hi.
  - destruct Hg as [_ Hg]. now apply (IH t1 t1).
  - split; [| now apply (IH t t1)].
    destruct He' as [->|He'].
    { unfold ends_with_activity in He. cbn in He. congruence. }
    destruct (first_activity_not_before tr t1 Hc He') as (t' & ts & Hts & Hle').
    rewrite Hts in Hg. destruct Hg as [Hlt _]. lia.
Qed.

End Runs.

(** ** Activity keeps the session; the stamp only advances *)

Section Mount.
Import JS SessionTimeout.

Lemma effect_unmounted (inst : nat) (timeoutMs now : Z) (w : world) :
  unmounted w ->
  effect inst timeoutMs now w =
    (next_interval w,
     World (<["lastActivity" := toString now]> (storage w))
           [("mousemove"%string, UpdateLastActivity inst);
            ("keydown"%string, UpdateLastActivity inst)]
           {[ next_interval w := (CheckSession inst timeoutMs, 30000) ]}
           (S (next_interval w))
           (log w ++ [AddEventListener "mousemove" (UpdateLastActivity inst);
                      AddEventListener "keydown" (UpdateLastActivity inst);
                      SetInterval (next_interval w) (CheckSession inst timeoutMs) 30000;
                      SetItem "lastActivity" (toString now)])).
Proof.
  intros [Hl Hi]. destruct w as [st ls iv nx lg].
  cbn [listeners intervals] in Hl, Hi. subst ls iv.
  cbv [effect mbind M_bind mret M_ret Browser.addEventListener
       Browser.setInterval updateLastActivity Browser.setItem record set_listeners
       set_storage storage listeners intervals next_interval log].
  rewrite insert_empty, <- !app_assoc.
  destruct (decide (("mousemove"%string, UpdateLastActivity inst) ∈ [])) as [Hin|_].
  { now apply not_elem_of_nil in Hin. }
  cbn [app].
  destruct (decide (("keydown"%string, UpdateLastActivity inst)
                      ∈ [("mousemove"%string, UpdateLastActivity inst)])) as [Hin|_].
  { apply list_elem_of_singleton in Hin. discriminate. }
  reflexivity.
Qed.

Lemma fresh_unmounted (st : gmap string string) : unmounted (fresh st).
Proof. split; reflexivity. Qed.

Lemma effect_fresh (inst : nat) (timeoutMs now : Z) (st : gmap string string) :
  effect inst timeoutMs now (fresh st) =
    (0%nat,
     World (<["lastActivity" := toString now]> st)
           [("mousemove"%string, UpdateLastActivity inst);
            ("keydown"%string, UpdateLastActivity inst)]
           {[ 0%nat := (CheckSession inst timeoutMs, 30000) ]} 1
           [AddEventListener "mousemove" (UpdateLastActivity inst);
            AddEventListener "keydown" (UpdateLastActivity inst);
            SetInterval 0 (CheckSession inst timeoutMs) 30000;
            SetItem "lastActivity" (toString now)]).
Proof. now rewrite effect_unmounted by apply fresh_unmounted. Qed.

Lemma useSessionTimeout_unmounted (inst : nat) (arg : option Z) (now : Z) (w : world) :
  unmounted w ->
  fst (useSessionTimeout inst arg now w) = next_interval w
  /\ mounted inst (default 10 arg * 60 * 1000) (next_interval w)
       (exec (useSessionTimeout inst arg now) w).
Proof.
  intros Hw. unfold useSessionTimeout, exec. rewrite effect_unmounted by exact Hw.
  cbn [fst snd]. split; [reflexivity|]. split; reflexivity.
Qed.

Lemma useSessionTimeout_mounted (inst : nat) (arg : option Z) (now : Z)
    (st : gmap string string) :
  fst (useSessionTimeout inst arg now (fresh st)) = 0%nat
  /\ mounted inst (default 10 arg * 60 * 1000) 0
       (exec (useSessionTimeout inst arg now) (fresh st)).
Proof. apply (useSessionTimeout_unmounted inst arg now (fresh st)), fresh_unmounted. Qed.

End Mount.

Section RunClaims.
Import JS SessionTimeout.

(** C2: on a mounted page, take a run that starts and ends with an
    activity event (pointer move or key press), whose clock does not run
    backwards and whose consecutive activity events are less than
    [timeoutMinutes] minutes apart, with timer firings anywhere in
    between.  After the run [user_id] holds what it held before, and no
    call added to the log is a removal, an alert or a redirect. *)
Theorem activity_keeps_session_alive
    (inst : nat) (timeoutMinutes : Z) (interval : nat) (w : world)
    (t0 : Z) (a0 : input) (rest : list (Z * input)) :
  mounted inst (timeoutMinutes * 60 * 1000) interval w ->
  is_activity a0 = true ->
  clock_from t0 rest ->
  gaps_below (timeoutMinutes * 60 * 1000) t0 (activity_times rest) ->
  ends_with_activity ((t0, a0) :: rest) ->
  let w' := run ((t0, a0) :: rest) w in
  storage w' !! "user_id" = storage w !! "user_id"
  /\ exists added, log w' = log w ++ added
                   /\ Forall (fun o => is_expiry_op o = false) added.
Proof.
  intros Hm Ha Hc Hg He w'. subst w'. cbn [run].
  rewrite (deliver_activity inst _ interval t0 a0 w Hm Ha).
  assert (Hm' : mounted inst (timeoutMinutes * 60 * 1000) interval
                  (exec (updateLastActivity t0) w)) by exact Hm.
  assert (Hcov : covered (timeoutMinutes * 60 * 1000) t0 rest).
  { apply (gaps_cover_checks _ rest t0 t0 Hc Hg).
    destruct rest as [|e rest']; [now left | right].
    unfold ends_with_activity in *. now rewrite last_cons_cons in He. }
  destruct (covered_run_keeps_session inst _ interval rest _ t0 Hm'
              (stamp_after_activity t0 w) Hcov) as (Hu & added & Hl & Hf).
  rewrite storage_after_activity, lookup_insert_ne in Hu by discriminate.
  rewrite log_after_activity in Hl.
  split; [exact Hu|].
  exists (SetItem "lastActivity" (toString t0) :: added).
  split; [now rewrite Hl, <- app_assoc | now constructor].
Qed.

(** A ten-minute monitor, a pointer move, a key press nine minutes later
    and another nine minutes and twenty seconds after that, with the
    timer coming due in between. *)
Lemma activity_keeps_session_alive_witness :
  let w := exec (useSessionTimeout 0 (Some 10) 1700000000000)
                (fresh (<["user_id" := "7"]> ∅)) in
  let w' := run [(1700000000000, MouseMove);
                 (1700000030000, IntervalDue 0%nat);
                 (1700000540000, KeyDown);
                 (1700000570000, IntervalDue 0%nat);
                 (1700001100000, KeyDown)] w in
  storage w' !! "user_id" = Some "7"%string
  /\ exists added, log w' = log w ++ added
                   /\ Forall (fun o => is_expiry_op o = false) added.
Proof.
  intros w.
  apply (activity_keeps_session_alive 0 10 0 w 1700000000000 MouseMove
           [(1700000030000, IntervalDue 0%nat); (1700000540000, KeyDown);
            (1700000570000, IntervalDue 0%nat); (1700001100000, KeyDown)]).
  - split; vm_compute; reflexivity.
  - reflexivity.
  - cbn; lia.
  - cbn; lia.
  - reflexivity.
Defined.

(** Scenario B of the specification: the key press at nine minutes moves
    the expiry from the check after ten minutes to the check after
    nineteen. *)
Example scenario_refresh_postpones_expiry :
  let w := exec (useSessionTimeout 0 (Some 10) 1700000000000)
                (fresh (<["user_id" := "7"]> ∅)) in
  let w11 := run [(1700000540000, KeyDown); (1700000660000, IntervalDue 0%nat)] w in
  let w19 := run [(1700001140001, IntervalDue 0%nat)] w11 in
  storage w11 !! "user_id" = Some "7"%string
  /\ stamp w11 = Int 1700000540000
  /\ storage w19 !! "user_id" = None
  /\ log w19 = log w11 ++ [GetItem "lastActivity"; GetItem "user_id";
                            RemoveItem "user_id"; RemoveItem "lastActivity";
                            Alert "Session expired. Please log in again.";
                            Navigate "/login"].
Proof. repeat split; vm_compute; reflexivity. Qed.

Lemma history_head (tr : list (Z * input)) (w : world) : history tr w !! 0%nat = Some w.
Proof. destruct tr as [|[t i] tr]; reflexivity. Qed.

Lemma outcome_stamp (timeoutMs : Z) (interval : nat) (now tc : Z) (i : input)
    (w w' : world) :
  outcome timeoutMs interval now w i w' ->
  stamp_at_most tc w -> tc <= now ->
  stamp_at_most now w'
  /\ (forall a b, stamp w = Int a -> stamp w' = Int b -> a <= b).
Proof.
  intros Ho Hs Hle. destruct Ho as [i Hi | a Hq | a Hu Ha Hz Hgt | id Hne].
  - split.
    + intros a Ha. rewrite stamp_after_activity in Ha. injection Ha as <-. lia.
    + intros a b Ha Hb. rewrite stamp_after_activity in Hb. injection Hb as <-.
      specialize (Hs a Ha). lia.
  - split.
    + intros b Hb. specialize (Hs b Hb). lia.
    + intros b c Hb Hc. change (stamp (session_reads w)) with (stamp w) in Hc.
      rewrite Hb in Hc. injection Hc as <-. lia.
  - split.
    + intros b Hb. rewrite stamp_after_expiry in Hb. discriminate.
    + intros b c _ Hc. rewrite stamp_after_expiry in Hc. discriminate.
  - split.
    + intros b Hb. specialize (Hs b Hb). lia.
    + intros b c Hb Hc. rewrite Hb in Hc. injection Hc as <-. lia.
Qed.

Lemma history_nondecreasing (inst : nat) (timeoutMs : Z) (interval : nat)
    (tr : list (Z * input)) :
  forall (w : world) (tc : Z),
    mounted inst timeoutMs interval w ->
    stamp_at_most tc w ->
    clock_from tc tr ->
    stamps_nondecreasing (history tr w).
Proof.
  induction tr as [|[t i] tr IH]; intros w tc Hm Hs Hc k wb wa a b Hb Ha.
  - destruct k; discriminate Ha.
  - destruct Hc as [Hle Hc]. cbn [history] in Hb, Ha.
    pose proof (deliver_outcome inst timeoutMs interval t i w Hm) as Ho.
    destruct (outcome_stamp _ _ _ tc _ _ _ Ho Hs Hle) as [Hs' Hstep].
    destruct k as [|k].
    + cbn in Hb. injection Hb as <-.
      change ((w :: history tr (exec (deliver t i) w)) !! 1%nat)
        with (history tr (exec (deliver t i) w) !! 0%nat) in Ha.
      rewrite history_head in Ha. injection Ha as <-. apply Hstep.
    + apply (IH _ t (deliver_mounted inst timeoutMs interval t i w Hm) Hs' Hc k wb wa a b);
        assumption.
Qed.





End RunClaims.

(** ** Mounting and unmounting *)

Section Lifecycle.
Import JS SessionTimeout.

Lemma effect_exec (inst : nat) (timeoutMs now : Z) (w : world) :
  let id := next_interval w in
  let handler := CheckSession inst timeoutMs in
  let r := effect inst timeoutMs now w in
  fst r = id
  /\ storage (snd r) = <["lastActivity" := toString now]> (storage w)
  /\ intervals (snd r) = <[id := (handler, 30000)]> (intervals w)
  /\ next_interval (snd r) = S id
  /\ log (snd r) =
       log w ++ [AddEventListener "mousemove" (UpdateLastActivity inst);
                 AddEventListener "keydown" (UpdateLastActivity inst);
                 SetInterval id handler 30000;
                 SetItem "lastActivity" (toString now)]
  /\ ("mousemove"%string, UpdateLastActivity inst) ∈ listeners (snd r)
  /\ ("keydown"%string, UpdateLastActivity inst) ∈ listeners (snd r).
Proof.
  destruct w as [st ls iv nx lg].
  cbv [effect mbind M_bind mret M_ret Browser.addEventListener
       Browser.setInterval updateLastActivity Browser.setItem record set_listeners
       set_storage storage listeners intervals next_interval log fst snd].
  repeat split.
  - now rewrite <- !app_assoc.
  - destruct (decide _) as [H1|H1], (decide _) as [H2|H2];
      rewrite ?elem_of_app, ?list_elem_of_singleton in *; tauto.
  - destruct (decide _) as [H1|H1], (decide _) as [H2|H2];
      rewrite ?elem_of_app, ?list_elem_of_singleton in *; tauto.
Qed.

Lemma cleanup_mounted (inst : nat) (timeoutMs : Z) (interval : nat) (w : world) :
  mounted inst timeoutMs interval w ->
  exec (cleanup inst interval) w =
    World (storage w) [] ∅ (next_interval w)
          (log w ++ [ClearInterval interval;
                     RemoveEventListener "mousemove" (UpdateLastActivity inst);
                     RemoveEventListener "keydown" (UpdateLastActivity inst)]).
Proof.
  intros [Hl Hi].
  unfold cleanup, exec, mbind, M_bind, Browser.clearInterval,
    Browser.removeEventListener, record, set_listeners.
  cbn [storage listeners intervals next_interval log fst snd].
  rewrite Hl, Hi, delete_singleton_eq, <- !app_assoc. cbn [app].
  f_equal.
  rewrite !filter_cons, filter_nil.
  rewrite decide_False by (intros H; now apply H).
  rewrite decide_True by discriminate.
  rewrite filter_cons, filter_nil.
  now rewrite decide_False by (intros H; now apply H).
Qed.

Lemma deliver_unmounted (now : Z) (i : input) (w : world) :
  unmounted w -> exec (deliver now i) w = w.
Proof.
  intros [Hl Hi]. destruct i as [| |id];
    unfold deliver, dispatchEvent, listeners_for, fireInterval, exec.
  - now rewrite Hl.
  - now rewrite Hl.
  - now rewrite Hi, lookup_empty.
Qed.

Lemma run_unmounted (tr : list (Z * input)) (w : world) :
  unmounted w -> run tr w = w.
Proof.
  intros Hw. induction tr as [|[t i] tr IH]; cbn [run]; [reflexivity|].
  now rewrite deliver_unmounted.
Qed.

End Lifecycle.

(** ** Claims about mounting, unmounting and the token *)

Section LifecycleClaims.
Import JS SessionTimeout.

(** C8, as stated, fails on the order: mounting a ten-minute monitor on
    an empty page at clock reading 1700000000000 first subscribes the two
    listeners, then starts the timer, and records the stamp last, so the
    first call of the mount is not the write of [lastActivity]. *)
Lemma mount_records_stamp_last :
  let w := exec (useSessionTimeout 0 (Some 10) 1700000000000) (fresh ∅) in
  log w = [AddEventListener "mousemove" (UpdateLastActivity 0);
           AddEventListener "keydown" (UpdateLastActivity 0);
           SetInterval 0 (CheckSession 0 600000) 30000;
           SetItem "lastActivity" "1700000000000"]
  /\ head (log w) <> Some (SetItem "lastActivity" "1700000000000").
Proof. split; vm_compute; [reflexivity | discriminate]. Qed.

(** C8 (amended): mounting performs four calls in this order: subscribe
    the [mousemove] listener, subscribe the [keydown] listener, start the
    periodic check with a delay of 30000 ms whatever [timeoutMinutes] is,
    and write the current time to [lastActivity].  Afterwards both
    listeners are registered, the returned timer id runs the check with
    threshold [timeoutMinutes * 60 * 1000] (10 minutes when the argument
    is omitted), and the stamp reads back as the current time. *)
Theorem mount_subscribes_starts_timer_then_records
    (inst : nat) (arg : option Z) (now : Z) (w : world) :
  let r := useSessionTimeout inst arg now w in
  let check := CheckSession inst (default 10 arg * 60 * 1000) in
  log (snd r) =
    log w ++ [AddEventListener "mousemove" (UpdateLastActivity inst);
              AddEventListener "keydown" (UpdateLastActivity inst);
              SetInterval (fst r) check 30000;
              SetItem "lastActivity" (toString now)]
  /\ ("mousemove"%string, UpdateLastActivity inst) ∈ listeners (snd r)
  /\ ("keydown"%string, UpdateLastActivity inst) ∈ listeners (snd r)
  /\ intervals (snd r) !! fst r = Some (check, 30000)
  /\ stamp (snd r) = Int now.
Proof.
  intros r check. subst r check. unfold useSessionTimeout.
  destruct (effect_exec inst (default 10 arg * 60 * 1000) now w)
    as (Hid & Hst & Hiv & _ & Hlog & Hmm & Hkd).
  rewrite Hid. repeat split; try assumption.
  - now rewrite Hiv, lookup_insert_eq.
  - unfold stamp. rewrite Hst, lookup_insert_eq. apply parseInt_toString.
Qed.

(** C9: on a page with nothing registered, mount the monitor, let any
    inputs follow, then run the cleanup: it clears the timer and removes
    the two listeners, leaving no listener and no timer; after that, any
    further inputs (pointer moves, key presses, the cleared timer coming
    due) leave the world as it is: no check, no read, no write. *)
Theorem unmount_stops_the_monitor
    (inst : nat) (arg : option Z) (t0 : Z) (w0 : world)
    (before after : list (Z * input)) :
  unmounted w0 ->
  let r := useSessionTimeout inst arg t0 w0 in
  let w := run before (snd r) in
  let w' := exec (cleanup inst (fst r)) w in
  w' = World (storage w) [] ∅ (next_interval w)
             (log w ++ [ClearInterval (fst r);
                        RemoveEventListener "mousemove" (UpdateLastActivity inst);
                        RemoveEventListener "keydown" (UpdateLastActivity inst)])
  /\ run after w' = w'.
Proof.
  intros Hw0 r w w'. subst r w w'.
  destruct (useSessionTimeout_unmounted inst arg t0 w0 Hw0) as [Hid Hm].
  rewrite Hid.
  change (snd (useSessionTimeout inst arg t0 w0))
    with (exec (useSessionTimeout inst arg t0) w0).
  pose proof (run_mounted inst _ _ before _ Hm) as Hm'.
  rewrite (cleanup_mounted inst _ _ _ Hm').
  split; [reflexivity|].
  apply run_unmounted. split; reflexivity.
Qed.

(** A monitor that saw a pointer move and one check, is unmounted, and
    then sees a key press and its old timer come due long after the
    threshold: the session marker and the stamp stay. *)
Lemma unmount_stops_the_monitor_witness :
  let r := useSessionTimeout 0 (Some 10) 1700000000000 (fresh (<["user_id" := "7"]> ∅)) in
  let w := run [(1700000010000, MouseMove); (1700000030000, IntervalDue 0%nat)] (snd r) in
  let w' := exec (cleanup 0 (fst r)) w in
  run [(1700000040000, KeyDown); (1700009000000, IntervalDue 0%nat)] w' = w'
  /\ storage w' !! "user_id" = Some "7"%string
  /\ stamp w' = Int 1700000010000.
Proof.
  intros r w w'. split.
  - apply (unmount_stops_the_monitor 0 (Some 10) 1700000000000
             (fresh (<["user_id" := "7"]> ∅))
             [(1700000010000, MouseMove); (1700000030000, IntervalDue 0%nat)]
             [(1700000040000, KeyDown); (1700009000000, IntervalDue 0%nat)]).
    split; reflexivity.
  - split; vm_compute; reflexivity.
Defined.

Lemma outcome_leaves_key (k : string) (timeoutMs : Z) (interval : nat) (now : Z)
    (i : input) (w w' : world) :
  k <> "user_id"%string -> k <> "lastActivity"%string ->
  outcome timeoutMs interval now w i w' ->
  storage w' !! k = storage w !! k
  /\ exists added, log w' = log w ++ added
                   /\ Forall (fun o => storage_key o <> Some k) added.
Proof.
  intros Hu Hl Ho. destruct Ho as [i Hi | a Hq | a Hu' Ha Hz Hgt | id Hne].
  - split; [rewrite storage_after_activity; now rewrite lookup_insert_ne|].
    exists [SetItem "lastActivity" (toString now)]. split; [reflexivity|].
    repeat constructor. cbn. congruence.
  - split; [reflexivity|]. eexists. split; [apply log_after_reads|].
    repeat constructor; cbn; congruence.
  - rewrite expire_session_reads_eq. cbn [storage log].
    split; [now rewrite !lookup_delete_ne|].
    eexists. split; [reflexivity|].
    repeat constructor; cbn; congruence.
  - split; [reflexivity|]. exists []. split; [now rewrite app_nil_r | constructor].
Qed.

Lemma run_leaves_key (k : string) (inst : nat) (timeoutMs : Z) (interval : nat)
    (tr : list (Z * input)) :
  k <> "user_id"%string -> k <> "lastActivity"%string ->
  forall w : world,
    mounted inst timeoutMs interval w ->
    storage (run tr w) !! k = storage w !! k
    /\ exists added, log (run tr w) = log w ++ added
                     /\ Forall (fun o => storage_key o <> Some k) added.
Proof.
  intros Hu Hl. induction tr as [|[t i] tr IH]; intros w Hm; cbn [run].
  - split; [reflexivity|]. exists []. split; [now rewrite app_nil_r | constructor].
  - destruct (outcome_leaves_key k _ _ _ _ _ _ Hu Hl
                (deliver_outcome inst timeoutMs interval t i w Hm))
      as (Hs1 & l1 & Hl1 & Hf1).
    destruct (IH _ (deliver_mounted inst timeoutMs interval t i w Hm))
      as (Hs2 & l2 & Hl2 & Hf2).
    split; [now rewrite Hs2|].
    exists (l1 ++ l2). split; [now rewrite Hl2, Hl1, <- app_assoc|].
    now apply Forall_app.
Qed.

(** C5: every check either only performs its two reads, or performs
    an expiry: the two reads, the removal of [user_id] and of
    [lastActivity], the alert and the redirect, leaving storage without
    exactly those two entries; in both cases [token] holds afterwards
    what it held before.  The expiry is what a check does when it finds a
    non-empty marker and a non-zero stamp more than [timeoutMs] old: then
    [user_id] and [lastActivity] are absent afterwards and every other
    entry, [token] among them, is as before.  Over a whole life of the
    monitor (mount, any inputs, cleanup) no call reads, writes or removes
    [token], whose entry stays as it was before the mount. *)
Theorem monitor_never_touches_token :
  (forall (timeoutMs now : Z) (w : world),
     let w' := exec (checkSession timeoutMs now) w in
     (w' = World (storage w) (listeners w) (intervals w) (next_interval w)
                 (log w ++ [GetItem "lastActivity"; GetItem "user_id"])
      \/ w' = World (delete "lastActivity" (delete "user_id" (storage w)))
                    (listeners w) (intervals w) (next_interval w)
                    (log w ++ [GetItem "lastActivity"; GetItem "user_id";
                               RemoveItem "user_id"; RemoveItem "lastActivity";
                               Alert "Session expired. Please log in again.";
                               Navigate "/login"]))
     /\ storage w' !! "token" = storage w !! "token")
  /\ (forall (timeoutMs now a : Z) (uid : string) (w : world),
        storage w !! "user_id" = Some uid -> uid <> EmptyString ->
        parseInt (storage w !! "lastActivity") = Int a -> a <> 0 ->
        now - a > timeoutMs ->
        let w' := exec (checkSession timeoutMs now) w in
        storage w' = delete "lastActivity" (delete "user_id" (storage w))
        /\ storage w' !! "user_id" = None
        /\ storage w' !! "lastActivity" = None
        /\ (forall k : string,
              k <> "user_id"%string -> k <> "lastActivity"%string ->
              storage w' !! k = storage w !! k)
        /\ storage w' !! "token" = storage w !! "token"
        /\ log w' = log w ++ [GetItem "lastActivity"; GetItem "user_id";
                              RemoveItem "user_id"; RemoveItem "lastActivity";
                              Alert "Session expired. Please log in again.";
                              Navigate "/login"])
  /\ (forall (inst : nat) (arg : option Z) (t0 : Z) (st : gmap string string)
             (tr : list (Z * input)),
        let r := useSessionTimeout inst arg t0 (fresh st) in
        let w' := exec (cleanup inst (fst r)) (run tr (snd r)) in
        Forall (fun o => storage_key o <> Some "token"%string) (log w')
        /\ storage w' !! "token" = st !! "token").
Proof.
  split; [|split].
  - intros timeoutMs now w w'. subst w'. rewrite checkSession_exec. cbv zeta.
    destruct (_ && _ && _).
    + rewrite expire_session_reads_eq. cbn [storage].
      split; [now right | now rewrite !lookup_delete_ne].
    + rewrite session_reads_eq. split; [now left | reflexivity].
  - intros timeoutMs now a uid w Hu Hne Ha Hz Hgt w'. subst w'.
    rewrite (checkSession_expires timeoutMs now a); try assumption; try lia.
    2:{ eapply truthy_item_nonempty; eassumption. }
    rewrite expire_session_reads_eq. cbn [storage log].
    split; [reflexivity|].
    split; [now rewrite lookup_delete_ne, lookup_delete_eq by discriminate|].
    split; [now rewrite lookup_delete_eq|].
    split; [intros k Hk1 Hk2; now rewrite !lookup_delete_ne by congruence|].
    split; [now rewrite !lookup_delete_ne by discriminate | reflexivity].
  - intros inst arg t0 st tr r w'. subst r w'.
    destruct (useSessionTimeout_mounted inst arg t0 st) as [Hid Hm].
    rewrite Hid.
    change (snd (useSessionTimeout inst arg t0 (fresh st)))
      with (exec (useSessionTimeout inst arg t0) (fresh st)).
    pose proof (run_mounted inst _ 0 tr _ Hm) as Hm'.
    rewrite (cleanup_mounted inst _ 0 _ Hm'). cbn [storage log].
    destruct (run_leaves_key "token" inst _ 0 tr ltac:(discriminate) ltac:(discriminate)
                _ Hm) as (Hs & added & Hl & Hf).
    rewrite Hs, Hl. unfold exec, useSessionTimeout. rewrite effect_fresh.
    cbn [snd storage log]. split; [|now rewrite lookup_insert_ne].
    rewrite !Forall_app. repeat split; try assumption;
      repeat constructor; cbn; congruence.
Qed.

(** A session with a token, idle for eleven minutes: the check removes
    the marker and the stamp and leaves the token. *)
Lemma monitor_never_touches_token_witness :
  let w := fresh (<["user_id" := "7"]> (<["token" := "jwt"]>
                    (<["lastActivity" := "1700000000000"]> ∅))) in
  let w' := exec (checkSession 600000 1700000660000) w in
  storage w' = delete "lastActivity" (delete "user_id" (storage w))
  /\ storage w' !! "user_id" = None
  /\ storage w' !! "lastActivity" = None
  /\ (forall k : string,
        k <> "user_id"%string -> k <> "lastActivity"%string ->
        storage w' !! k = storage w !! k)
  /\ storage w' !! "token" = storage w !! "token"
  /\ log w' = log w ++ [GetItem "lastActivity"; GetItem "user_id";
                        RemoveItem "user_id"; RemoveItem "lastActivity";
                        Alert "Session expired. Please log in again.";
                        Navigate "/login"].
Proof.
  intros w.
  destruct monitor_never_touches_token as (_ & Hexp & _).
  apply (Hexp 600000 1700000660000 1700000000000 "7"%string w).
  - vm_compute; reflexivity.
  - discriminate.
  - vm_compute; reflexivity.
  - lia.
  - lia.
Defined.

End LifecycleClaims.

(** ** Further properties of the monitor *)

Section MonitorExtras.
Import JS SessionTimeout.

Lemma alerts_app (l1 l2 : list op) : alerts (l1 ++ l2) = (alerts l1 + alerts l2)%nat.
Proof. unfold alerts. now rewrite List.filter_app, length_app. Qed.

Lemma alerts_quiet (l : list op) :
  Forall (fun o => is_expiry_op o = false) l -> alerts l = 0%nat.
Proof.
  induction 1 as [|o l Ho _ IH]; [reflexivity|].
  change (o :: l) with ([o] ++ l). rewrite alerts_app, IH.
  destruct o; try discriminate Ho; reflexivity.
Qed.

Lemma outcome_next_interval (timeoutMs : Z) (interval : nat) (now : Z) (i : input)
    (w w' : world) :
  outcome timeoutMs interval now w i w' -> next_interval w' = next_interval w.
Proof. intros Ho; destruct Ho; reflexivity. Qed.

Lemma run_next_interval (inst : nat) (timeoutMs : Z) (interval : nat)
    (tr : list (Z * input)) :
  forall w : world,
    mounted inst timeoutMs interval w -> next_interval (run tr w) = next_interval w.
Proof.
  induction tr as [|[t i] tr IH]; intros w Hm; cbn [run]; [reflexivity|].
  rewrite IH by now apply deliver_mounted.
  eapply outcome_next_interval, deliver_outcome, Hm.
Qed.

(** Without a session marker no run of a mounted monitor ends anything:
    the marker stays as it is and no removal, alert or redirect is added. *)
Lemma run_without_marker (inst : nat) (timeoutMs : Z) (interval : nat)
    (tr : list (Z * input)) :
  forall w : world,
    mounted inst timeoutMs interval w ->
    truthy_item (storage w !! "user_id") = false ->
    storage (run tr w) !! "user_id" = storage w !! "user_id"
    /\ exists added, log (run tr w) = log w ++ added
                     /\ Forall (fun o => is_expiry_op o = false) added.
Proof.
  induction tr as [|[t i] tr IH]; intros w Hm Hu; cbn [run].
  - split; [reflexivity|]. exists []. split; [now rewrite app_nil_r | constructor].
  - pose proof (deliver_mounted inst timeoutMs interval t i w Hm) as Hm'.
    destruct (deliver_outcome inst timeoutMs interval t i w Hm)
      as [i Hi | a Hq | a Hu' Ha Hz Hgt | id Hne].
    + assert (Hsame : storage (exec (updateLastActivity t) w) !! "user_id"
                      = storage w !! "user_id").
      { rewrite storage_after_activity. now rewrite lookup_insert_ne. }
      destruct (IH _ Hm' ltac:(now rewrite Hsame)) as (Hs & added & Hl & Hf).
      split; [now rewrite Hs|].
      exists (SetItem "lastActivity" (toString t) :: added).
      rewrite Hl, log_after_activity, <- app_assoc. split; [reflexivity | now constructor].
    + destruct (IH _ Hm' Hu) as (Hs & added & Hl & Hf).
      split; [exact Hs|].
      exists (GetItem "lastActivity" :: GetItem "user_id" :: added).
      rewrite Hl, log_after_reads, <- app_assoc.
      split; [reflexivity | now repeat constructor].
    + congruence.
    + now apply IH.
Qed.

Lemma marker_gone_after_expiry (w : world) :
  truthy_item (storage (expire (session_reads w)) !! "user_id") = false.
Proof.
  rewrite expire_session_reads_eq. cbn [storage].
  now rewrite lookup_delete_ne, lookup_delete_eq by discriminate.
Qed.

Lemma log_after_expiry (w : world) :
  log (expire (session_reads w)) =
    log w ++ [GetItem "lastActivity"; GetItem "user_id";
              RemoveItem "user_id"; RemoveItem "lastActivity";
              Alert "Session expired. Please log in again."; Navigate "/login"].
Proof. now rewrite expire_session_reads_eq. Qed.

(** X1: A run of a mounted monitor raises the session-expired alert at most
    once, whatever the inputs and the clock; and if it raised it, the
    marker is gone at the end of the run. *)
Theorem monitor_alerts_at_most_once (inst : nat) (timeoutMs : Z) (interval : nat)
    (tr : list (Z * input)) :
  forall w : world,
    mounted inst timeoutMs interval w ->
    exists added,
      log (run tr w) = log w ++ added
      /\ (alerts added <= 1)%nat
      /\ (alerts added = 1%nat -> storage (run tr w) !! "user_id" = None).
Proof.
  induction tr as [|[t i] tr IH]; intros w Hm; cbn [run].
  - exists []. rewrite app_nil_r. repeat split; [cbn; lia | discriminate].
  - pose proof (deliver_mounted inst timeoutMs interval t i w Hm) as Hm'.
    destruct (deliver_outcome inst timeoutMs interval t i w Hm)
      as [i Hi | a Hq | a Hu' Ha Hz Hgt | id Hne].
    + destruct (IH _ Hm') as (added & Hl & Hle & Hone).
      exists (SetItem "lastActivity" (toString t) :: added).
      rewrite Hl, log_after_activity, <- app_assoc. repeat split; assumption.
    + destruct (IH _ Hm') as (added & Hl & Hle & Hone).
      exists (GetItem "lastActivity" :: GetItem "user_id" :: added).
      rewrite Hl, log_after_reads, <- app_assoc. repeat split; assumption.
    + destruct (run_without_marker inst timeoutMs interval tr _ Hm'
                  (marker_gone_after_expiry w)) as (Hs & added & Hl & Hf).
      exists ([GetItem "lastActivity"; GetItem "user_id";
               RemoveItem "user_id"; RemoveItem "lastActivity";
               Alert "Session expired. Please log in again."; Navigate "/login"]
              ++ added).
      rewrite Hl, log_after_expiry, <- app_assoc, alerts_app, (alerts_quiet added Hf).
      repeat split; [cbn; lia|]. intros _.
      rewrite Hs, expire_session_reads_eq. cbn [storage].
      now rewrite lookup_delete_ne, lookup_delete_eq by discriminate.
    + now apply IH.
Qed.

Lemma monitor_alerts_at_most_once_witness :
  let w := exec (useSessionTimeout 0 (Some 10) 1700000000000)
                (fresh (<["user_id" := "7"]> ∅)) in
  let tr := [(1700000700000, IntervalDue 0%nat); (1700000710000, MouseMove);
             (1700009000000, IntervalDue 0%nat)] in
  exists added,
    log (run tr w) = log w ++ added
    /\ (alerts added <= 1)%nat
    /\ (alerts added = 1%nat -> storage (run tr w) !! "user_id" = None).
Proof.
  intros w tr.
  apply (monitor_alerts_at_most_once 0 600000 0 tr w).
  split; vm_compute; reflexivity.
Defined.

(** X2: A logged-in user who stays idle is logged out: on a mounted page
    with a non-empty marker and a non-zero stamp [t], a run of timer
    firings without any activity, one of which comes more than
    [timeoutMs] after [t], ends with the marker removed and exactly one
    alert raised. *)
Theorem idle_user_is_logged_out (inst : nat) (timeoutMs : Z) (interval : nat) (t : Z)
    (tr : list (Z * input)) :
  forall w : world,
    mounted inst timeoutMs interval w ->
    truthy_item (storage w !! "user_id") = true ->
    stamp w = Int t -> t <> 0 ->
    only_timers tr ->
    late_check timeoutMs interval t tr ->
    storage (run tr w) !! "user_id" = None
    /\ exists added, log (run tr w) = log w ++ added /\ alerts added = 1%nat.
Proof.
  induction tr as [|[t' i] tr IH]; intros w Hm Hu Hs Hz Hno Hlate.
  - inversion Hlate.
  - cbn [run]. apply Forall_cons in Hno as [Hi Hno]. cbn [snd] in Hi.
    pose proof (deliver_mounted inst timeoutMs interval t' i w Hm) as Hm'.
    destruct (deliver_outcome inst timeoutMs interval t' i w Hm)
      as [i Hact | a Hq | a Hu' Ha Hz' Hgt | id Hne].
    + congruence.
    + assert (Hle : t' - t <= timeoutMs).
      { destruct Hq as [Hq | [Hq | [Hq Hle]]].
        - congruence.
        - rewrite Hs in Hq. cbn in Hq. destruct (Z.eqb_spec t 0); [contradiction | discriminate].
        - rewrite Hs in Hq. injection Hq as <-. exact Hle. }
      apply Exists_cons in Hlate as [[_ Hlate] | Hlate]; [cbn [fst] in Hlate; lia|].
      destruct (IH (session_reads w) Hm' Hu Hs Hz Hno Hlate) as (Hgone & added & Hl & Hone).
      split; [exact Hgone|].
      exists (GetItem "lastActivity" :: GetItem "user_id" :: added).
      rewrite Hl, log_after_reads, <- app_assoc. split; [reflexivity | exact Hone].
    + destruct (run_without_marker inst timeoutMs interval tr _ Hm'
                  (marker_gone_after_expiry w)) as (Hsame & added & Hl & Hf).
      split.
      * rewrite Hsame, expire_session_reads_eq. cbn [storage].
        now rewrite lookup_delete_ne, lookup_delete_eq by discriminate.
      * eexists. rewrite Hl, log_after_expiry, <- app_assoc. split; [reflexivity|].
        rewrite alerts_app, (alerts_quiet added Hf). reflexivity.
    + apply Exists_cons in Hlate as [[Heq _] | Hlate]; [cbn [snd] in Heq; congruence|].
      now apply IH.
Qed.

(** Scenario A of the specification as a run: checks every thirty
    seconds after the last activity, the one at ten and a half minutes
    coming first after the threshold. *)
Lemma idle_user_is_logged_out_witness :
  let w := exec (useSessionTimeout 0 (Some 10) 1700000000000)
                (fresh (<["user_id" := "7"]> ∅)) in
  let tr := [(1700000570000, IntervalDue 0%nat); (1700000600000, IntervalDue 0%nat);
             (1700000630000, IntervalDue 0%nat); (1700000660000, IntervalDue 0%nat)] in
  storage (run tr w) !! "user_id" = None
  /\ exists added, log (run tr w) = log w ++ added /\ alerts added = 1%nat.
Proof.
  intros w tr.
  apply (idle_user_is_logged_out 0 600000 0 1700000000000 tr w).
  - split; vm_compute; reflexivity.
  - vm_compute; reflexivity.
  - vm_compute; reflexivity.
  - lia.
  - repeat constructor.
  - right; right. left. split; [reflexivity | cbn; lia].
Defined.

(** X3: When the threshold changes, React cleans the old effect up and runs
    it anew: from a page with nothing registered, mount, any inputs, then
    the re-run leave exactly the new effect mounted, with the new
    threshold, under a timer id different from the old one, whose firing
    from then on does nothing; the stamp is the time of the re-run. *)
Theorem rerun_leaves_no_stale_timer
    (inst inst' : nat) (arg arg' : option Z) (t0 t1 : Z) (w0 : world)
    (tr : list (Z * input)) :
  unmounted w0 ->
  let r := useSessionTimeout inst arg t0 w0 in
  let w := run tr (snd r) in
  let r' := rerun inst (fst r) inst' arg' t1 w in
  mounted inst' (default 10 arg' * 60 * 1000) (fst r') (snd r')
  /\ fst r' <> fst r
  /\ stamp (snd r') = Int t1
  /\ (forall now, exec (deliver now (IntervalDue (fst r))) (snd r') = snd r').
Proof.
  intros Hw0 r w r'. subst r w r'.
  destruct (useSessionTimeout_unmounted inst arg t0 w0 Hw0) as [Hid Hm].
  rewrite Hid.
  change (snd (useSessionTimeout inst arg t0 w0))
    with (exec (useSessionTimeout inst arg t0) w0).
  pose proof (run_mounted inst _ _ tr _ Hm) as Hm'.
  pose proof (run_next_interval inst _ _ tr _ Hm) as Hn.
  set (w := run tr (exec (useSessionTimeout inst arg t0) w0)) in *.
  assert (Hre : rerun inst (next_interval w0) inst' arg' t1 w
                = useSessionTimeout inst' arg' t1 (exec (cleanup inst (next_interval w0)) w)).
  { unfold rerun, mbind, M_bind, exec. now destruct (cleanup _ _ w). }
  rewrite Hre, (cleanup_mounted inst _ _ _ Hm').
  set (w' := World _ _ _ _ _).
  assert (Hu : unmounted w') by (split; reflexivity).
  destruct (useSessionTimeout_unmounted inst' arg' t1 w' Hu) as [Hid' Hmn].
  assert (Hnext : next_interval w' = S (next_interval w0)).
  { subst w'. cbn [next_interval]. rewrite Hn.
    unfold useSessionTimeout, exec. now rewrite effect_unmounted. }
  rewrite Hid'. change (snd (useSessionTimeout inst' arg' t1 w'))
    with (exec (useSessionTimeout inst' arg' t1) w').
  split; [exact Hmn|]. split; [lia|]. split.
  - unfold useSessionTimeout, exec. rewrite effect_unmounted by exact Hu. cbn [snd].
    unfold stamp; cbn [storage]. rewrite lookup_insert_eq. apply parseInt_toString.
  - intros now. apply (deliver_other_due inst' _ _ now _ _ Hmn). lia.
Qed.

Lemma rerun_leaves_no_stale_timer_witness :
  let r := useSessionTimeout 0 (Some 10) 1700000000000 (fresh (<["user_id" := "7"]> ∅)) in
  let w := run [(1700000010000, MouseMove)] (snd r) in
  let r' := rerun 0 (fst r) 1 (Some 30) 1700000020000 w in
  mounted 1 1800000 (fst r') (snd r')
  /\ fst r' <> fst r
  /\ stamp (snd r') = Int 1700000020000
  /\ (forall now, exec (deliver now (IntervalDue (fst r))) (snd r') = snd r').
Proof.
  intros r w r'.
  apply (rerun_leaves_no_stale_timer 0 1 (Some 10) (Some 30) 1700000000000 1700000020000
           (fresh (<["user_id" := "7"]> ∅)) [(1700000010000, MouseMove)]).
  split; reflexivity.
Defined.

End MonitorExtras.

(** ** Logging out and logging in *)

Section Session.
Import JS SessionTimeout.

Lemma handleLogout_same : LogoutButton.handleLogout = Navbar.handleLogout.
Proof. reflexivity. Qed.

Lemma handleLogout_exec (w : world) :
  exec Navbar.handleLogout w =
    World (delete "lastActivity" (delete "token" (delete "user_id" (storage w))))
          (listeners w) (intervals w) (next_interval w)
          (log w ++ [RemoveItem "user_id"; RemoveItem "token";
                     RemoveItem "lastActivity"; Navigate "/login"]).
Proof.
  unfold Navbar.handleLogout, exec, mbind, M_bind, Browser.removeItem, Browser.navigate,
    record, set_storage.
  cbn [storage listeners intervals next_interval log snd]. now rewrite <- !app_assoc.
Qed.

Ltac by_lookup :=
  apply map_eq; intros k;
  repeat (rewrite lookup_delete || rewrite lookup_insert);
  repeat case_decide; subst; try reflexivity; try congruence.

(** X4: After either logout handler ran on a page whose monitor is still
    mounted, no inputs make the monitor end a session: marker and token
    stay absent and no removal, alert or redirect is added, although a
    pointer move or key press writes the stamp again. *)
Theorem logout_silences_monitor (logout : M unit)
    (inst : nat) (timeoutMs : Z) (interval : nat) (w : world) (tr : list (Z * input)) :
  logout = Navbar.handleLogout \/ logout = LogoutButton.handleLogout ->
  mounted inst timeoutMs interval w ->
  let w1 := exec logout w in
  let w2 := run tr w1 in
  storage w2 !! "user_id" = None
  /\ storage w2 !! "token" = None
  /\ (exists added, log w2 = log w1 ++ added
                    /\ Forall (fun o => is_expiry_op o = false) added)
  /\ (forall t i, is_activity i = true -> stamp (exec (deliver t i) w1) = Int t).
Proof.
  intros Hlogout Hm w1 w2. subst w1 w2.
  assert (Heq : logout = Navbar.handleLogout) by (destruct Hlogout; now subst).
  subst logout. clear Hlogout.
  assert (Hm1 : mounted inst timeoutMs interval (exec Navbar.handleLogout w)).
  { rewrite handleLogout_exec. exact Hm. }
  assert (Hu : storage (exec Navbar.handleLogout w) !! "user_id" = None).
  { rewrite handleLogout_exec. cbn [storage].
    now rewrite !lookup_delete_ne, lookup_delete_eq by discriminate. }
  assert (Ht : storage (exec Navbar.handleLogout w) !! "token" = None).
  { rewrite handleLogout_exec. cbn [storage].
    now rewrite lookup_delete_ne, lookup_delete_eq by discriminate. }
  destruct (run_without_marker inst timeoutMs interval tr _ Hm1) as (Hs & added & Hl & Hf).
  { now rewrite Hu. }
  destruct (run_leaves_key "token" inst timeoutMs interval tr
              ltac:(discriminate) ltac:(discriminate) _ Hm1) as (Hk & _).
  split; [now rewrite Hs|]. split; [now rewrite Hk|]. split; [now exists added|].
  intros t i Hi.
  rewrite (deliver_activity inst timeoutMs interval t i _ Hm1 Hi).
  apply stamp_after_activity.
Qed.

Lemma logout_silences_monitor_witness :
  let w := exec (useSessionTimeout 0 (Some 10) 1700000000000)
                (fresh (<["user_id" := "7"]> (<["token" := "abc"]> ∅))) in
  let w1 := exec LogoutButton.handleLogout w in
  let w2 := run [(1700000010000, MouseMove); (1700009000000, IntervalDue 0%nat)] w1 in
  storage w2 !! "user_id" = None
  /\ storage w2 !! "token" = None
  /\ stamp w2 = Int 1700000010000.
Proof.
  intros w w1 w2.
  destruct (logout_silences_monitor LogoutButton.handleLogout 0 600000 0 w
              [(1700000010000, MouseMove); (1700009000000, IntervalDue 0%nat)])
    as (Hu & Ht & _).
  - now right.
  - split; vm_compute; reflexivity.
  - split; [exact Hu|]. split; [exact Ht|]. vm_compute; reflexivity.
Defined.

(** X5: An expiry is not a logout: a check that finds a non-empty
    marker and a non-zero stamp more than [timeoutMs] old removes marker
    and stamp but leaves the token in storage, which the logout handler
    removes; a logout after that check, and a second logout, leave
    storage as one logout alone does. *)
Theorem logout_absorbs_expiry (timeoutMs now a : Z) (w : world) :
  truthy_item (storage w !! "user_id") = true ->
  stamp w = Int a -> a <> 0 -> timeoutMs < now - a ->
  let w' := exec (checkSession timeoutMs now) w in
  storage w' !! "user_id" = None
  /\ storage w' !! "lastActivity" = None
  /\ storage w' !! "token" = storage w !! "token"
  /\ storage (exec Navbar.handleLogout w) !! "token" = None
  /\ storage (exec Navbar.handleLogout w') = storage (exec Navbar.handleLogout w)
  /\ storage (exec Navbar.handleLogout (exec Navbar.handleLogout w))
     = storage (exec Navbar.handleLogout w).
Proof.
  intros Hu Hs Hz Hgt w'. subst w'.
  rewrite (checkSession_expires timeoutMs now a w Hu Hs Hz Hgt).
  rewrite !handleLogout_exec, expire_session_reads_eq. cbn [storage].
  split; [now rewrite lookup_delete_ne, lookup_delete_eq by discriminate|].
  split; [now rewrite lookup_delete_eq|].
  split; [now rewrite !lookup_delete_ne by discriminate|].
  split; [now rewrite lookup_delete_ne, lookup_delete_eq by discriminate|].
  split; by_lookup.
Qed.

Lemma logout_absorbs_expiry_witness :
  let w := fresh (<["user_id" := "7"]> (<["token" := "jwt"]>
                    (<["lastActivity" := "1700000000000"]> ∅))) in
  let w' := exec (checkSession 600000 1700000660000) w in
  storage w' !! "user_id" = None
  /\ storage w' !! "lastActivity" = None
  /\ storage w' !! "token" = storage w !! "token"
  /\ storage (exec Navbar.handleLogout w) !! "token" = None
  /\ storage (exec Navbar.handleLogout w') = storage (exec Navbar.handleLogout w)
  /\ storage (exec Navbar.handleLogout (exec Navbar.handleLogout w))
     = storage (exec Navbar.handleLogout w).
Proof.
  intros w.
  apply (logout_absorbs_expiry 600000 1700000660000 1700000000000 w).
  - vm_compute; reflexivity.
  - vm_compute; reflexivity.
  - lia.
  - lia.
Defined.



Lemma handleSubmit_resolved (form : gmap string string) (d : Login.data) (now : Z)
    (a : frontend) :
  let r := Login.handleSubmit form (Resolved (Some d)) now a in
  fst r = Value.or_else (Login.message d) (Value.Str "Login successful!")
  /\ storage (browser (snd r)) = login_storage d now (storage (browser a))
  /\ listeners (browser (snd r)) = listeners (browser a)
  /\ intervals (browser (snd r)) = intervals (browser a)
  /\ next_interval (browser (snd r)) = next_interval (browser a)
  /\ calls (snd r) = calls a ++ [HttpPost "/users/login" form]
  /\ exists written, log (browser (snd r))
                     = log (browser a) ++ written ++ [Navigate "/dashboard"]
                     /\ Forall (fun o => exists k v, o = SetItem k v) written.
Proof.
  destruct a as [[st ls iv nx lg] cs].
  destruct (Value.truthy (Login.access_token d)) eqn:Ht,
           (Value.truthy (Login.user_id d)) eqn:Hu;
    cbv [Login.handleSubmit login_storage mbind Page_bind ask];
    rewrite Ht, Hu;
    cbv [lift mret Page_ret Browser.setItem Browser.navigate record set_storage
         browser calls storage listeners intervals next_interval log fst snd];
    repeat split; try reflexivity.
  - eexists [_; _; _]. rewrite <- !app_assoc. split; [reflexivity|].
    repeat constructor; eauto.
  - eexists [_]. rewrite <- !app_assoc. split; [reflexivity|].
    repeat constructor; eauto.
  - eexists [_; _]. rewrite <- !app_assoc. split; [reflexivity|].
    repeat constructor; eauto.
  - exists []. split; [reflexivity | constructor].
Qed.

Lemma handleSubmit_failed (form : gmap string string) (answer : settled (option Login.data))
    (now : Z) (a : frontend) :
  (forall d, answer <> Resolved (Some d)) ->
  let r := Login.handleSubmit form answer now a in
  browser (snd r) = browser a
  /\ calls (snd r) = calls a ++ [HttpPost "/users/login" form]
  /\ fst r = match answer with
             | Rejected (Some (_, detail)) =>
                 Value.or_else detail (Value.Str "Invalid email or password")
             | _ => Value.Str "Invalid email or password"
             end.
Proof.
  intros Hno. unfold Login.handleSubmit, mbind, Page_bind, ask, mret, Page_ret.
  destruct answer as [[d|]|[[st detail]|]]; cbn [fst snd browser calls].
  - now destruct (Hno d).
  - repeat split.
  - repeat split.
  - repeat split.
Qed.



(** X7: The session a login starts satisfies what the monitor needs: log in
    at [t] in a browser with nothing registered, mount the monitor at
    [t0] not before [t], let any inputs follow on a clock that does not
    run backwards; the stamp never decreases from one world to the next,
    whatever storage held before the login. *)
Theorem login_then_monitor_stamps_nondecreasing
    (form : gmap string string) (d : Login.data) (t t0 : Z) (a : frontend)
    (inst : nat) (arg : option Z) (tr : list (Z * input)) :
  Value.truthy (Login.user_id d) = true ->
  unmounted (browser a) ->
  t <= t0 -> clock_from t0 tr ->
  let w := browser (snd (Login.handleSubmit form (Resolved (Some d)) t a)) in
  stamps_nondecreasing (w :: history tr (exec (useSessionTimeout inst arg t0) w)).
Proof.
  intros Hu Hun Hle Hc w. subst w.
  destruct (handleSubmit_resolved form d t a) as (_ & Hst & Hls & Hiv & _).
  set (w := browser (snd (Login.handleSubmit form (Resolved (Some d)) t a))) in *.
  assert (Hs : stamp w = Int t).
  { unfold stamp, login_storage in *. rewrite Hst, Hu, lookup_insert_eq.
    apply parseInt_toString. }
  assert (Hw : unmounted w).
  { destruct Hun as [H1 H2]. split; congruence. }
  destruct (useSessionTimeout_unmounted inst arg t0 w Hw) as [_ Hm].
  assert (Hs0 : stamp (exec (useSessionTimeout inst arg t0) w) = Int t0).
  { unfold useSessionTimeout, exec. rewrite effect_unmounted by exact Hw. cbn [snd].
    unfold stamp; cbn [storage]. rewrite lookup_insert_eq. apply parseInt_toString. }
  intros k wb wa x y Hb Ha.
  destruct k as [|k].
  - cbn in Hb. injection Hb as <-.
    change (history tr (exec (useSessionTimeout inst arg t0) w) !! 0%nat = Some wa) in Ha.
    rewrite history_head in Ha. injection Ha as <-.
    intros Hx Hy. rewrite Hs in Hx. rewrite Hs0 in Hy.
    injection Hx as <-. injection Hy as <-. exact Hle.
  - refine (history_nondecreasing inst _ _ tr _ t0 Hm _ Hc k wb wa x y Hb Ha).
    intros c Hc'. rewrite Hs0 in Hc'. injection Hc' as <-. lia.
Qed.

Lemma login_then_monitor_stamps_nondecreasing_witness :
  let d := Login.Data (Value.Str "jwt") (Value.Num (Int 12)) Value.Undefined in
  let a := opened (fresh (<["lastActivity" := "9999999999999"]> ∅)) in
  let w := browser (snd (Login.handleSubmit ∅ (Resolved (Some d)) 1700000000000 a)) in
  stamps_nondecreasing
    (w :: history [(1700000030000, IntervalDue 0%nat); (1700000040000, KeyDown)]
                  (exec (useSessionTimeout 0 (Some 10) 1700000001000) w)).
Proof.
  intros d a w.
  apply (login_then_monitor_stamps_nondecreasing ∅ d 1700000000000 1700000001000 a
           0 (Some 10) [(1700000030000, IntervalDue 0%nat); (1700000040000, KeyDown)]).
  - reflexivity.
  - split; reflexivity.
  - lia.
  - cbn; lia.
Defined.



(** X9: A login that fails (the request is rejected, or the body is
    [null]) leaves the browser as it was: nothing stored, no navigation;
    it made its one request and passes to [setMessage] the [detail] of
    the error response when that is truthy, otherwise "Invalid email or
    password".  The page then shows the default in red; a detail that is
    a non-empty string it shows as it is, in green exactly when the text
    contains [success]; for a truthy detail that is not a string,
    rendering throws. *)
Theorem failed_login_changes_nothing (form : gmap string string)
    (answer : settled (option Login.data)) (now : Z) (a : frontend) :
  (forall d, answer <> Resolved (Some d)) ->
  let r := Login.handleSubmit form answer now a in
  browser (snd r) = browser a
  /\ calls (snd r) = calls a ++ [HttpPost "/users/login" form]
  /\ fst r = match answer with
             | Rejected (Some (_, detail)) =>
                 if Value.truthy detail then detail
                 else Value.Str "Invalid email or password"
             | _ => Value.Str "Invalid email or password"
             end
  /\ LoginBanner.render (fst r)
     = match answer with
       | Rejected (Some (_, Value.Str (String c s))) =>
           LoginBanner.Shown (Dashboard.includes (String c s) "success") (String c s)
       | Rejected (Some (_, detail)) =>
           if Value.truthy detail then LoginBanner.Throws
           else LoginBanner.Shown false "Invalid email or password"
       | _ => LoginBanner.Shown false "Invalid email or password"
       end.
Proof.
  intros Hno r. subst r.
  destruct (handleSubmit_failed form answer now a Hno) as (Hb & Hc & Hm).
  split; [exact Hb|]. split; [exact Hc|]. rewrite Hm.
  destruct answer as [[d|]|[[st detail]|]]; try (split; reflexivity).
  unfold Value.or_else.
  destruct detail as [| |[]|[|z]|[|c s]]; try (split; reflexivity).
  cbn [Value.truthy truthy_number]. destruct (negb (z =? 0)) eqn:Hz.
  - split; [reflexivity|]. unfold LoginBanner.render.
    cbn [Value.truthy truthy_number]. now rewrite Hz.
  - split; reflexivity.
Qed.

Lemma failed_login_changes_nothing_witness :
  let a := opened (fresh (<["token" := "old"]> ∅)) in
  let r := Login.handleSubmit ∅ (Rejected (Some (401, Value.Str "Bad credentials")))
             1700000000000 a in
  browser (snd r) = browser a
  /\ fst r = Value.Str "Bad credentials"
  /\ LoginBanner.render (fst r) = LoginBanner.Shown false "Bad credentials".
Proof.
  intros a r.
  destruct (failed_login_changes_nothing ∅
              (Rejected (Some (401, Value.Str "Bad credentials"))) 1700000000000 a)
    as (Hb & _ & Hm & Hv).
  - discriminate.
  - split; [exact Hb|]. split; [exact Hm | exact Hv].
Defined.

(** X10: Whatever a login stored, a logout removes: after any settled login
    followed by a logout, storage is what a logout alone would have left. *)
Theorem logout_undoes_login (form : gmap string string)
    (answer : settled (option Login.data)) (now : Z) (a : frontend) :
  let w' := browser (snd (Login.handleSubmit form answer now a)) in
  storage (exec Navbar.handleLogout w') = storage (exec Navbar.handleLogout (browser a)).
Proof.
  intros w'. subst w'. rewrite !handleLogout_exec. cbn [storage].
  destruct answer as [[d|]|r].
  - destruct (handleSubmit_resolved form d now a) as (_ & -> & _).
    unfold login_storage.
    destruct (Value.truthy (Login.access_token d)), (Value.truthy (Login.user_id d));
      by_lookup.
  - destruct (handleSubmit_failed form (Resolved None) now a) as (-> & _);
      [discriminate | reflexivity].
  - destruct (handleSubmit_failed form (Rejected r) now a) as (-> & _);
      [discriminate | reflexivity].
Qed.

End Session.

(** ** The wishlist page *)

Section WishlistPage.
Import JS.

Lemma fetchWishlist_no_user (answer : settled (list item)) (p : Wishlist.state)
    (a : frontend) :
  truthy_item (storage (browser a) !! "user_id") = false ->
  Wishlist.fetchWishlist answer p a =
    (Wishlist.State (Wishlist.wishlist p) false "No user logged in.",
     Frontend (record (GetItem "user_id") (browser a)) (calls a)).
Proof.
  intros Hu. unfold Wishlist.fetchWishlist, mbind, Page_bind, lift, Browser.getItem.
  now rewrite Hu.
Qed.

Lemma fetchWishlist_user (answer : settled (list item)) (p : Wishlist.state)
    (a : frontend) :
  truthy_item (storage (browser a) !! "user_id") = true ->
  Wishlist.fetchWishlist answer p a =
    (match answer with
     | Resolved items => Wishlist.State items false (Wishlist.error p)
     | Rejected (Some (404, _)) =>
         Wishlist.State [] false "No items in wishlist. Add some products to get started!"
     | Rejected _ =>
         Wishlist.State (Wishlist.wishlist p) false
                        "Failed to fetch wishlist. Please try again later."
     end,
     Frontend (record (GetItem "user_id") (browser a))
              (calls a ++ [HttpGet ("/wishlist/"
                                    +:+ to_string_item (storage (browser a) !! "user_id"))])).
Proof.
  intros Hu. unfold Wishlist.fetchWishlist, mbind, Page_bind, lift, ask, Browser.getItem.
  rewrite Hu. cbn [negb browser calls].
  destruct answer as [items|[[status detail]|]]; try reflexivity.
  destruct status as [|[]|]; try reflexivity.
  repeat (match goal with |- context [match ?q with _ => _ end] => destruct q end;
          try reflexivity).
Qed.

(** X11: The wishlist page leaves its loading screen however the fetch goes:
    without a user, with an answer, with any rejection. *)
Theorem wishlist_fetch_always_stops_loading (answer : settled (list item))
    (p : Wishlist.state) (a : frontend) :
  let p' := fst (Wishlist.fetchWishlist answer p a) in
  Wishlist.loading p' = false /\ Wishlist.render p' <> Wishlist.LoadingView.
Proof.
  intros p'. subst p'.
  assert (H : Wishlist.loading (fst (Wishlist.fetchWishlist answer p a)) = false).
  { destruct (truthy_item (storage (browser a) !! "user_id")) eqn:Hu.
    - rewrite fetchWishlist_user by exact Hu. cbn [fst].
      destruct answer as [items|[[status detail]|]]; try reflexivity.
      destruct status as [|[]|]; try reflexivity.
      repeat (match goal with |- context [match ?q with _ => _ end] => destruct q end;
              try reflexivity).
    - now rewrite fetchWishlist_no_user. }
  split; [exact H|]. unfold Wishlist.render. rewrite H.
  destruct (Wishlist.error _); [destruct (_ =? _)%nat|]; discriminate.
Qed.

(** X12: The wishlist is requested exactly when the marker holds a non-empty
    string, from the address made of that string; without it the page
    asks the server nothing and shows "No user logged in.". *)
Theorem wishlist_fetch_needs_a_user (answer : settled (list item))
    (p : Wishlist.state) (a : frontend) :
  let r := Wishlist.fetchWishlist answer p a in
  match storage (browser a) !! "user_id" with
  | Some (String c s) => calls (snd r) = calls a ++ [HttpGet ("/wishlist/" +:+ String c s)]
  | _ => calls (snd r) = calls a
         /\ Wishlist.render (fst r) = Wishlist.ErrorView "No user logged in."
  end.
Proof.
  intros r. subst r.
  destruct (storage (browser a) !! "user_id") as [[|c s]|] eqn:Hu.
  - rewrite fetchWishlist_no_user by now rewrite Hu. split; reflexivity.
  - rewrite fetchWishlist_user by now rewrite Hu. cbn [snd calls]. now rewrite Hu.
  - rewrite fetchWishlist_no_user by now rewrite Hu. split; reflexivity.
Qed.

(** X13: For a logged-in user the page shows its empty-wishlist screen
    exactly when the server answered with an empty list: a 404, for
    which the handler also empties the list, shows the error screen. *)
Theorem empty_screen_only_for_empty_answer (answer : settled (list item)) (a : frontend) :
  truthy_item (storage (browser a) !! "user_id") = true ->
  Wishlist.render (fst (Wishlist.fetchWishlist answer Wishlist.initial a))
    = Wishlist.EmptyView
  <-> answer = Resolved [].
Proof.
  intros Hu. rewrite fetchWishlist_user by exact Hu. cbn [fst]. split.
  - destruct answer as [[|it items]|[[status detail]|]]; try reflexivity; try discriminate.
    destruct status as [|[]|]; try discriminate.
    repeat (match goal with |- context [match ?q with _ => _ end] => destruct q end;
            try discriminate).
  - intros ->. reflexivity.
Qed.

Lemma empty_screen_only_for_empty_answer_witness :
  let a := opened (fresh (<["user_id" := "7"]> ∅)) in
  Wishlist.render (fst (Wishlist.fetchWishlist (Rejected (Some (404, Value.Undefined)))
                          Wishlist.initial a))
    = Wishlist.ErrorView "No items in wishlist. Add some products to get started!"
  /\ (Wishlist.render (fst (Wishlist.fetchWishlist (Resolved []) Wishlist.initial a))
        = Wishlist.EmptyView <-> Resolved [] = Resolved (D := list item) []).
Proof.
  intros a. split; [reflexivity|].
  apply (empty_screen_only_for_empty_answer (Resolved []) a). reflexivity.
Defined.

Lemma handleDelete_user (productId : Z) (confirmed ok : bool) (p : Wishlist.state)
    (a : frontend) :
  truthy_item (storage (browser a) !! "user_id") = true ->
  let ask_user := Confirm "Are you sure you want to remove this product from your wishlist?" in
  let request := HttpDelete ("/wishlist/user/"
                             +:+ to_string_item (storage (browser a) !! "user_id")
                             +:+ "/product/" +:+ toString productId) in
  let w := record (GetItem "user_id") (browser a) in
  Wishlist.handleDelete productId confirmed ok p a =
    if confirmed then
      if ok then
        (Wishlist.State (List.filter (other_product productId) (Wishlist.wishlist p))
                        (Wishlist.loading p) (Wishlist.error p),
         Frontend w (calls a ++ [ask_user; request]))
      else
        (p, Frontend (record (Alert "Failed to delete product. Please try again later.") w)
                     (calls a ++ [ask_user; request]))
    else (p, Frontend w (calls a ++ [ask_user])).
Proof.
  intros Hu. unfold Wishlist.handleDelete, mbind, Page_bind, lift, ask, mret, Page_ret,
    Browser.getItem, Browser.alert.
  rewrite Hu. cbn [negb browser calls].
  destruct confirmed, ok; cbn [negb browser calls]; now rewrite <- ?app_assoc.
Qed.

Lemma handleDelete_no_user (productId : Z) (confirmed ok : bool) (p : Wishlist.state)
    (a : frontend) :
  truthy_item (storage (browser a) !! "user_id") = false ->
  Wishlist.handleDelete productId confirmed ok p a =
    (p, Frontend (record (Alert "User not logged in")
                         (record (GetItem "user_id") (browser a)))
                 (calls a)).
Proof.
  intros Hu. unfold Wishlist.handleDelete, mbind, Page_bind, lift, Browser.getItem,
    Browser.alert.
  now rewrite Hu.
Qed.

Lemma filter_sublist {X} (f : X -> bool) (l : list X) : sublist (List.filter f l) l.
Proof.
  induction l as [|x l IH]; cbn; [constructor|].
  destruct (f x); now constructor.
Qed.

(** X14: A deletion the user confirmed and the server accepted leaves
    as the shown list the old list without the entries of that product:
    the entries with another [product_id], each as often as before and
    in their order; loading flag and error stay. *)
Theorem delete_removes_exactly_that_product (productId : Z) (p : Wishlist.state)
    (a : frontend) :
  truthy_item (storage (browser a) !! "user_id") = true ->
  let p' := fst (Wishlist.handleDelete productId true true p a) in
  Wishlist.wishlist p'
  = List.filter (fun it => negb (product_id it =? productId)) (Wishlist.wishlist p)
  /\ (forall it, In it (Wishlist.wishlist p')
                 <-> In it (Wishlist.wishlist p) /\ product_id it <> productId)
  /\ sublist (Wishlist.wishlist p') (Wishlist.wishlist p)
  /\ Wishlist.loading p' = Wishlist.loading p
  /\ Wishlist.error p' = Wishlist.error p.
Proof.
  intros Hu p'. subst p'. rewrite handleDelete_user by exact Hu. cbn [fst Wishlist.wishlist].
  split; [reflexivity|].
  split; [|split; [apply filter_sublist | split; reflexivity]].
  intros it. rewrite List.filter_In. unfold other_product.
  destruct (Z.eqb_spec (product_id it) productId); cbn; intuition congruence.
Qed.

Lemma delete_removes_exactly_that_product_witness :
  let a := opened (fresh (<["user_id" := "7"]> ∅)) in
  let keep := Item 1 "lamp" "https://shop.example/1" None in
  let gone := Item 2 "desk" "https://shop.example/2" (Some "Price drop") in
  let p := Wishlist.State [keep; gone; keep; gone] false EmptyString in
  Wishlist.wishlist (fst (Wishlist.handleDelete 2 true true p a)) = [keep; keep]
  /\ ~ In gone (Wishlist.wishlist (fst (Wishlist.handleDelete 2 true true p a))).
Proof.
  intros a keep gone p.
  destruct (delete_removes_exactly_that_product 2 p a) as (Heq & Hin & _).
  - reflexivity.
  - split; [rewrite Heq; reflexivity|].
    intros H. apply Hin in H as [_ H]. now apply H.
Defined.

(** X15: The shown list changes only if the user is logged in, confirmed and
    the server accepted.  The user is asked only when logged in and the
    server only after a confirmation; without a user the handler alerts
    "User not logged in" and asks nobody. *)
Theorem delete_is_guarded (productId : Z) (confirmed ok : bool) (p : Wishlist.state)
    (a : frontend) :
  let r := Wishlist.handleDelete productId confirmed ok p a in
  let user := truthy_item (storage (browser a) !! "user_id") in
  (user && confirmed && ok = false -> fst r = p)
  /\ calls (snd r) =
       calls a ++
       (if user then
          Confirm "Are you sure you want to remove this product from your wishlist?"
          :: (if confirmed then
                [HttpDelete ("/wishlist/user/"
                             +:+ to_string_item (storage (browser a) !! "user_id")
                             +:+ "/product/" +:+ toString productId)]
              else [])
        else [])
  /\ (user = false ->
      log (browser (snd r))
      = log (browser a) ++ [GetItem "user_id"; Alert "User not logged in"]).
Proof.
  intros r user. subst r user.
  destruct (truthy_item (storage (browser a) !! "user_id")) eqn:Hu.
  - rewrite handleDelete_user by exact Hu. cbv zeta.
    destruct confirmed, ok; cbn [andb fst snd calls]; repeat split;
      try discriminate; try reflexivity.
  - rewrite handleDelete_no_user by exact Hu. cbn [andb fst snd calls browser].
    repeat split; [now rewrite app_nil_r|].
    intros _. unfold record; cbn [log]. now rewrite <- app_assoc.
Qed.

Lemma delete_is_guarded_witness :
  let a := opened (fresh (<["user_id" := "7"]> ∅)) in
  let p := Wishlist.State [Item 2 "desk" "https://shop.example/2" None] false EmptyString in
  fst (Wishlist.handleDelete 2 true false p a) = p
  /\ fst (Wishlist.handleDelete 2 false true p a) = p.
Proof.
  intros a p. split.
  - destruct (delete_is_guarded 2 true false p a) as (H & _). apply H. reflexivity.
  - destruct (delete_is_guarded 2 false true p a) as (H & _). apply H. reflexivity.
Defined.

Lemma filter_other_comm (x y : Z) (l : list item) :
  List.filter (other_product x) (List.filter (other_product y) l)
  = List.filter (other_product y) (List.filter (other_product x) l).
Proof.
  induction l as [|it l IH]; [reflexivity|]. cbn.
  destruct (other_product y it) eqn:Hy, (other_product x it) eqn:Hx; cbn;
    rewrite ?Hx, ?Hy, ?IH; reflexivity.
Qed.

Lemma filter_other_idem (x : Z) (l : list item) :
  List.filter (other_product x) (List.filter (other_product x) l)
  = List.filter (other_product x) l.
Proof.
  induction l as [|it l IH]; [reflexivity|]. cbn.
  destruct (other_product x it) eqn:Hx; cbn; rewrite ?Hx, ?IH; reflexivity.
Qed.

(** X16: Accepted deletions can be applied in either order, and deleting a
    product a second time changes nothing: the update filters the list
    it finds, so two deletions under way at once do not undo each other. *)
Theorem deletions_commute (x y : Z) (p : Wishlist.state) (a1 a2 a3 a4 : frontend) :
  truthy_item (storage (browser a1) !! "user_id") = true ->
  truthy_item (storage (browser a2) !! "user_id") = true ->
  truthy_item (storage (browser a3) !! "user_id") = true ->
  truthy_item (storage (browser a4) !! "user_id") = true ->
  let del id q a := fst (Wishlist.handleDelete id true true q a) in
  del x (del y p a1) a2 = del y (del x p a3) a4
  /\ del x (del x p a1) a2 = del x p a3.
Proof.
  intros H1 H2 H3 H4 del. subst del. cbv beta.
  rewrite !handleDelete_user by assumption. cbn [fst Wishlist.wishlist Wishlist.loading
    Wishlist.error].
  split; [now rewrite filter_other_comm | now rewrite filter_other_idem].
Qed.

Lemma deletions_commute_witness :
  let a := opened (fresh (<["user_id" := "7"]> ∅)) in
  let p := Wishlist.State [Item 1 "lamp" "u1" None; Item 2 "desk" "u2" None;
                           Item 3 "rug" "u3" None] false EmptyString in
  let del id q := fst (Wishlist.handleDelete id true true q a) in
  del 1 (del 3 p) = del 3 (del 1 p) /\ del 1 (del 1 p) = del 1 p.
Proof.
  intros a p del.
  apply (deletions_commute 1 3 p a a a a); reflexivity.
Defined.

End WishlistPage.

(** ** The dashboard page *)

Section DashboardPage.
Import JS.

Lemma load_no_user (answer : settled (option (list item))) (p : Dashboard.state)
    (a : frontend) :
  truthy_item (storage (browser a) !! "user_id") = false ->
  Dashboard.load answer p a =
    (p, Frontend (record (GetItem "user_id") (browser a)) (calls a)).
Proof.
  intros Hu. unfold Dashboard.load, mbind, Page_bind, lift, Browser.getItem.
  now rewrite Hu.
Qed.

Lemma load_user (answer : settled (option (list item))) (p : Dashboard.state)
    (a : frontend) :
  truthy_item (storage (browser a) !! "user_id") = true ->
  Dashboard.load answer p a =
    (match answer with
     | Resolved body =>
         Dashboard.State (Dashboard.counts (Dashboard.summarize body p))
                         (Dashboard.recentAIInsights (Dashboard.summarize body p)) false
     | Rejected _ =>
         Dashboard.State (Dashboard.counts p) (Dashboard.recentAIInsights p) false
     end,
     Frontend (record (GetItem "user_id") (browser a))
              (calls a ++ [HttpGet ("/wishlist/"
                                    +:+ to_string_item (storage (browser a) !! "user_id"))])).
Proof.
  intros Hu. unfold Dashboard.load, mbind, Page_bind, lift, ask, Browser.getItem.
  rewrite Hu. cbn [negb browser calls]. now destruct answer.
Qed.

(** X17: Without a user the dashboard asks the server nothing and keeps its
    state as it is, so a page that opened on its loading screen stays
    there; the wishlist page in the same situation shows an error. *)
Theorem dashboard_without_user_stays_loading
    (answer : settled (option (list item))) (listing : settled (list item))
    (a : frontend) :
  truthy_item (storage (browser a) !! "user_id") = false ->
  let r := Dashboard.load answer Dashboard.initial a in
  Dashboard.shows_loading (fst r) = true
  /\ calls (snd r) = calls a
  /\ Wishlist.render (fst (Wishlist.fetchWishlist listing Wishlist.initial a))
     = Wishlist.ErrorView "No user logged in.".
Proof.
  intros Hu r. subst r.
  rewrite load_no_user by exact Hu. rewrite fetchWishlist_no_user by exact Hu.
  repeat split.
Qed.

Lemma dashboard_without_user_stays_loading_witness :
  let a := opened (fresh (<["token" := "jwt"]> ∅)) in
  Dashboard.shows_loading (fst (Dashboard.load (Resolved (Some [])) Dashboard.initial a))
  = true.
Proof.
  intros a.
  apply (dashboard_without_user_stays_loading (Resolved (Some [])) (Resolved []) a).
  reflexivity.
Defined.

Lemma filter_length_mono {X} (f g : X -> bool) (l : list X) :
  (forall x, f x = true -> g x = true) ->
  (length (List.filter f l) <= length (List.filter g l))%nat.
Proof.
  intros Hfg. induction l as [|x l IH]; [reflexivity|]. cbn.
  destruct (f x) eqn:Hf.
  - rewrite (Hfg x Hf). cbn. lia.
  - destruct (g x); cbn; lia.
Qed.

Lemma filter_length_bound {X} (f : X -> bool) (l : list X) :
  (length (List.filter f l) <= length l)%nat.
Proof. induction l as [|x l IH]; cbn; [lia|]. destruct (f x); cbn; lia. Qed.

Lemma filter_all {X} (f : X -> bool) (l : list X) :
  Forall (fun x => f x = true) (List.filter f l).
Proof.
  induction l as [|x l IH]; cbn; [constructor|].
  destruct (f x) eqn:Hf; [now constructor | exact IH].
Qed.

Lemma mentions_drop_has_summary (it : item) :
  Dashboard.mentions_drop it = true -> Dashboard.has_summary it = true.
Proof. unfold Dashboard.mentions_drop. now intros [H _]%andb_prop. Qed.

(** X18: The counts of the dashboard: both totals are the length of the list
    received (0 for a missing body), and the price drops counted are at
    most the entries that carry a summary, hence at most the total. *)
Theorem dashboard_counts_are_bounded (body : option (list item)) (p : Dashboard.state)
    (a : frontend) :
  truthy_item (storage (browser a) !! "user_id") = true ->
  let p' := fst (Dashboard.load (Resolved body) p a) in
  let received := default [] body in
  let with_summary := length (List.filter Dashboard.has_summary received) in
  Dashboard.totalProducts (Dashboard.counts p') = length received
  /\ Dashboard.wishlistItems (Dashboard.counts p') = length received
  /\ (Dashboard.priceDrops (Dashboard.counts p') <= with_summary)%nat
  /\ (with_summary <= length received)%nat
  /\ Dashboard.loading p' = false.
Proof.
  intros Hu p' received with_summary. subst p' received with_summary.
  rewrite load_user by exact Hu.
  cbn [fst Dashboard.counts Dashboard.summarize Dashboard.totalProducts
       Dashboard.wishlistItems Dashboard.priceDrops Dashboard.loading].
  repeat split.
  - apply filter_length_mono, mentions_drop_has_summary.
  - apply filter_length_bound.
Qed.

Lemma dashboard_counts_are_bounded_witness :
  let a := opened (fresh (<["user_id" := "7"]> ∅)) in
  let body := Some [Item 1 "lamp" "u1" (Some "Price drop of 5%");
                    Item 2 "desk" "u2" None;
                    Item 3 "rug" "u3" (Some "Stable")] in
  let p' := fst (Dashboard.load (Resolved body) Dashboard.initial a) in
  Dashboard.totalProducts (Dashboard.counts p') = 3%nat
  /\ Dashboard.wishlistItems (Dashboard.counts p') = 3%nat
  /\ (Dashboard.priceDrops (Dashboard.counts p') <= 2)%nat
  /\ (2 <= 3)%nat
  /\ Dashboard.loading p' = false.
Proof.
  intros a body.
  apply (dashboard_counts_are_bounded body Dashboard.initial a). reflexivity.
Defined.

(** X19: The insights shown are the last three entries that carry a summary
    (all of them when there are fewer), newest first: reversed, they are
    the end of the list of entries with a summary. *)
Theorem insights_are_latest_three_newest_first (body : option (list item))
    (p : Dashboard.state) (a : frontend) :
  truthy_item (storage (browser a) !! "user_id") = true ->
  let insights := Dashboard.recentAIInsights (fst (Dashboard.load (Resolved body) p a)) in
  let with_summary := List.filter Dashboard.has_summary (default [] body) in
  length insights = Nat.min 3 (length with_summary)
  /\ (exists older, with_summary = older ++ rev insights)
  /\ Forall (fun it => Dashboard.has_summary it = true) insights.
Proof.
  intros Hu insights with_summary. subst insights with_summary.
  rewrite load_user by exact Hu.
  cbn [fst Dashboard.recentAIInsights Dashboard.summarize].
  set (l := List.filter Dashboard.has_summary (default [] body)).
  unfold Dashboard.slice_last3. split; [|split].
  - rewrite length_rev, length_drop. lia.
  - exists (take (length l - 3) l). now rewrite rev_involutive, take_drop.
  - apply Forall_rev, Forall_drop, filter_all.
Qed.

Lemma insights_are_latest_three_newest_first_witness :
  let a := opened (fresh (<["user_id" := "7"]> ∅)) in
  let s n := Item n "p" "u" (Some "note") in
  let body := Some [s 1; s 2; Item 3 "q" "u" None; s 4; s 5] in
  let insights :=
    Dashboard.recentAIInsights (fst (Dashboard.load (Resolved body) Dashboard.initial a)) in
  length insights = 3%nat
  /\ (exists older, [s 1; s 2; s 4; s 5] = older ++ rev insights)
  /\ Forall (fun it => Dashboard.has_summary it = true) insights.
Proof.
  intros a s body.
  apply (insights_are_latest_three_newest_first body Dashboard.initial a). reflexivity.
Defined.

(** X20: A fetch that fails leaves the dashboard as an empty wishlist does:
    opened on its initial state, the page ends with all counts 0 and no
    insights whether the request was rejected, answered without a body,
    or answered with an empty list. *)
Theorem failed_dashboard_looks_empty (response : option (Z * Value.t)) (a : frontend) :
  truthy_item (storage (browser a) !! "user_id") = true ->
  let after answer := fst (Dashboard.load answer Dashboard.initial a) in
  after (Rejected response) = Dashboard.State (Dashboard.Stats 0 0 0) [] false
  /\ after (Resolved None) = after (Rejected response)
  /\ after (Resolved (Some [])) = after (Rejected response).
Proof.
  intros Hu after. subst after. cbv beta.
  rewrite !load_user by exact Hu. repeat split.
Qed.

Lemma failed_dashboard_looks_empty_witness :
  let a := opened (fresh (<["user_id" := "7"]> ∅)) in
  fst (Dashboard.load (Rejected (Some (500, Value.Undefined))) Dashboard.initial a)
  = fst (Dashboard.load (Resolved (Some [])) Dashboard.initial a).
Proof.
  intros a.
  destruct (failed_dashboard_looks_empty (Some (500, Value.Undefined)) a) as (_ & _ & H).
  - reflexivity.
  - symmetry. exact H.
Defined.

Lemma toLowerCase_app (s1 s2 : string) :
  Dashboard.toLowerCase (s1 +:+ s2) = Dashboard.toLowerCase s1 +:+ Dashboard.toLowerCase s2.
Proof.
  induction s1 as [|c s1 IH]; [reflexivity|].
  change (String (Dashboard.lower_char c) (Dashboard.toLowerCase (s1 +:+ s2))
          = String (Dashboard.lower_char c)
                   (Dashboard.toLowerCase s1 +:+ Dashboard.toLowerCase s2)).
  now rewrite IH.
Qed.

Lemma starts_with_app (needle rest : string) :
  Dashboard.starts_with needle (needle +:+ rest) = true.
Proof.
  induction needle as [|c needle IH]; [reflexivity|].
  change (Dashboard.starts_with (String c needle) (String c (needle +:+ rest)) = true).
  cbn [Dashboard.starts_with]. now rewrite Ascii.eqb_refl.
Qed.

Lemma starts_with_includes (s needle : string) :
  Dashboard.starts_with needle s = true -> Dashboard.includes s needle = true.
Proof. intros H. destruct s; cbn; now rewrite H. Qed.

Lemma includes_app (before needle rest : string) :
  Dashboard.includes (before +:+ needle +:+ rest) needle = true.
Proof.
  induction before as [|c before IH].
  - change (Dashboard.includes (needle +:+ rest) needle = true).
    apply starts_with_includes, starts_with_app.
  - change (Dashboard.includes (String c (before +:+ needle +:+ rest)) needle = true).
    cbn [Dashboard.includes]. rewrite IH. apply orb_true_r.
Qed.

(** X21: The price-drop count reads summaries without regard to case: an
    entry whose summary contains the word in any capitalisation counts,
    wherever the word stands (inside a longer word too), and a wishlist
    that holds such an entry shows at least one price drop. *)
Theorem drop_detection_ignores_case (it : item) (before word rest : string) :
  ai_summary it = Some (before +:+ word +:+ rest) ->
  Dashboard.toLowerCase word = "drop"%string ->
  Dashboard.mentions_drop it = true
  /\ (forall (received : list item) (p : Dashboard.state) (a : frontend),
        truthy_item (storage (browser a) !! "user_id") = true ->
        In it received ->
        (1 <= Dashboard.priceDrops
                (Dashboard.counts (fst (Dashboard.load (Resolved (Some received)) p a))))%nat).
Proof.
  intros Hs Hw.
  assert (Hm : Dashboard.mentions_drop it = true).
  { unfold Dashboard.mentions_drop, Dashboard.has_summary. rewrite Hs.
    rewrite !toLowerCase_app, Hw, includes_app, andb_true_r.
    destruct before; [|reflexivity]. destruct word; [discriminate | reflexivity]. }
  split; [exact Hm|].
  intros received p a Hu Hin. rewrite load_user by exact Hu.
  cbn [fst Dashboard.counts Dashboard.summarize Dashboard.priceDrops default].
  assert (Hf : In it (List.filter Dashboard.mentions_drop received))
    by (apply List.filter_In; now split).
  change (id received) with received.
  destruct (List.filter Dashboard.mentions_drop received); [contradiction | cbn [length]; lia].
Qed.

Lemma drop_detection_ignores_case_witness :
  Dashboard.mentions_drop (Item 4 "shelf" "u4" (Some "BackDROPs are on sale")) = true.
Proof.
  apply (drop_detection_ignores_case (Item 4 "shelf" "u4" (Some "BackDROPs are on sale"))
           "Back" "DROP" "s are on sale"); reflexivity.
Defined.

(** X22: A login response without a truthy user id still sends the user to
    the dashboard while writing neither marker nor stamp; in a browser
    that held no marker the dashboard then asks the server nothing and
    stays on its loading screen. *)
Theorem login_without_user_id_strands_user (form : gmap string string) (d : Login.data)
    (now : Z) (a : frontend) (answer : settled (option (list item))) :
  Value.truthy (Login.user_id d) = false ->
  truthy_item (storage (browser a) !! "user_id") = false ->
  let a' := snd (Login.handleSubmit form (Resolved (Some d)) now a) in
  last (log (browser a')) = Some (Navigate "/dashboard")
  /\ storage (browser a') !! "user_id" = storage (browser a) !! "user_id"
  /\ storage (browser a') !! "lastActivity" = storage (browser a) !! "lastActivity"
  /\ Dashboard.shows_loading (fst (Dashboard.load answer Dashboard.initial a')) = true
  /\ calls (snd (Dashboard.load answer Dashboard.initial a')) = calls a'.
Proof.
  intros Hd Hu a'. subst a'.
  destruct (handleSubmit_resolved form d now a) as (_ & Hst & _ & _ & _ & _ & written & Hl & _).
  set (a' := snd (Login.handleSubmit form (Resolved (Some d)) now a)) in *.
  unfold login_storage in Hst. rewrite Hd in Hst. cbv beta iota zeta in Hst.
  assert (Hid : storage (browser a') !! "user_id" = storage (browser a) !! "user_id").
  { rewrite Hst. destruct (Value.truthy (Login.access_token d));
      [now rewrite lookup_insert_ne | reflexivity]. }
  assert (Hla : storage (browser a') !! "lastActivity"
                = storage (browser a) !! "lastActivity").
  { rewrite Hst. destruct (Value.truthy (Login.access_token d));
      [now rewrite lookup_insert_ne | reflexivity]. }
  split; [now rewrite Hl, app_assoc, last_snoc|].
  split; [exact Hid|]. split; [exact Hla|].
  rewrite load_no_user by now rewrite Hid. split; reflexivity.
Qed.

Lemma login_without_user_id_strands_user_witness :
  let d := Login.Data (Value.Str "jwt") (Value.Num (Int 0)) (Value.Str "Welcome") in
  let a' := snd (Login.handleSubmit ∅ (Resolved (Some d)) 1700000000000
                   (opened (fresh ∅))) in
  last (log (browser a')) = Some (Navigate "/dashboard")
  /\ storage (browser a') !! "user_id" = storage (fresh ∅) !! "user_id"
  /\ storage (browser a') !! "lastActivity" = storage (fresh ∅) !! "lastActivity"
  /\ Dashboard.shows_loading
       (fst (Dashboard.load (Resolved (Some [])) Dashboard.initial a')) = true
  /\ calls (snd (Dashboard.load (Resolved (Some [])) Dashboard.initial a')) = calls a'.
Proof.
  intros d.
  apply (login_without_user_id_strands_user ∅ d 1700000000000 (opened (fresh ∅))
           (Resolved (Some []))); reflexivity.
Defined.

End DashboardPage.
